(** * CasparCG server: video decoder, pixel-format resolution and mixer

    A shallow embedding of three translation units of the server:
    - the packet-queue video decoder [caspar::ffmpeg::video_decoder],
    - the older converting decoder [caspar::core::ffmpeg::video_decoder]
      with [get_pixel_format] and [get_pixel_format_desc],
    - the mixer [caspar::core::mixer] with its result type [mixed_frame].

    Machine integers are [Z] with the wrap-around of the source's casts
    written out, [double] is the binary64 type [float], exceptions are a
    sum type threaded next to the object state. *)

From Stdlib Require Import ZArith String Floats.
From stdpp Require Import base option list gmap.

Local Open Scope Z_scope.

(** ** Exceptions and the state-and-exception monad

    A C++ member function that may throw is a function from the object
    state to an outcome and the state it leaves behind: a throw keeps the
    side effects made before it. *)

Inductive exn : Type :=
  | ffmpeg_error (source : string) (ret : Z)
  | file_read_error (msg : string) (arg_value : float)
  | operation_failed (msg : string) (api_function : string)
  | invalid_operation (msg : string)
  | null_dereference
  | foreign_exception (what : string).

Definition M (S A : Type) : Type := S → (exn + A) * S.

#[global] Instance M_ret {S} : MRet (M S) := λ A a s, (inr a, s).
#[global] Instance M_bind {S} : MBind (M S) := λ A B k m s,
  match m s with
  | (inl e, s') => (inl e, s')
  | (inr a, s') => k a s'
  end.
Definition throw {S A} (e : exn) : M S A := λ s, (inl e, s).
Definition gets {S A} (f : S → A) : M S A := λ s, (inr (f s), s).
Definition modify {S} (f : S → S) : M S unit := λ s, (inr tt, f s).
(** [try { m } catch(...) { h }]. *)
Definition try_catch {S A} (m : M S A) (h : exn → M S A) : M S A :=
  λ s, match m s with
       | (inl e, s') => h e s'
       | (inr a, s') => (inr a, s')
       end.

(** [static_cast<uint32_t>] of a wider integer. *)
Definition to_uint32 (z : Z) : Z := z mod 2 ^ 32.

(** ** The packet-queue decoder, [caspar::ffmpeg::video_decoder] *)

Module VideoDecoder.

(** [AVPacket]: [data = None] is the null payload of the end-of-stream
    marker; [pts] is an [int64_t]. *)
Record AVPacket : Type := {
  stream_index : Z;
  data : option (list Byte.byte);
  pts : Z
}.

(** The fields of [AVFrame] the decoder reads or writes, and the picture. *)
Record AVFrame : Type := {
  interlaced_frame : Z;
  top_field_first : Z;
  repeat_pict : Z;
  frame_pts : Z;
  picture : list Byte.byte
}.

Definition set_frame_pts (v : Z) (f : AVFrame) : AVFrame :=
  {| interlaced_frame := interlaced_frame f; top_field_first := top_field_first f;
     repeat_pict := repeat_pict f; frame_pts := v; picture := picture f |}.

Record AVCodec : Type := {
  capabilities : Z;
  long_name : string
}.

(** The codec backend (libavcodec) is outside the repository: its decode
    primitive, its flush and the capability bit are an interface. The
    decode primitive returns its status code, [frame_finished], the
    picture it wrote and the codec's buffers after the call. *)
Class CodecBackend : Type := {
  codec_buffers : Type;
  CODEC_CAP_DELAY : Z;
  avcodec_decode_video2 :
    AVCodec → codec_buffers → AVPacket → Z * Z * AVFrame * codec_buffers;
  avcodec_flush_buffers : codec_buffers → codec_buffers
}.

(** What [poll] hands out besides null: the two sentinel frames of
    util.h and a decoded frame. *)
Inductive video : Type :=
  | flush_video
  | empty_video
  | decoded (f : AVFrame).

Inductive monitor_event : Type :=
  | event_int (path : string) (value : Z)
  | event_str (path : string) (value : string).

Section Decoder.
Context `{backend : CodecBackend}.

Record AVCodecContext : Type := {
  codec : AVCodec;
  width : Z;
  height : Z;
  buffers : codec_buffers
}.

Definition set_buffers (b : codec_buffers) (c : AVCodecContext) : AVCodecContext :=
  {| codec := codec c; width := width c; height := height c; buffers := b |}.

(** [struct video_decoder::impl]; [log_] is the sink of [CASPAR_LOG]. *)
Record impl : Type := {
  event_subject_ : list monitor_event;
  log_ : list string;
  index_ : Z;
  codec_context_ : option AVCodecContext;
  packets_ : list AVPacket;
  nb_frames_ : Z;
  width_ : Z;
  height_ : Z;
  is_progressive_ : bool;
  file_frame_number_ : Z
}.

Definition set_packets (q : list AVPacket) (s : impl) : impl :=
  {| event_subject_ := event_subject_ s; log_ := log_ s; index_ := index_ s;
     codec_context_ := codec_context_ s; packets_ := q; nb_frames_ := nb_frames_ s;
     width_ := width_ s; height_ := height_ s; is_progressive_ := is_progressive_ s;
     file_frame_number_ := file_frame_number_ s |}.

Definition set_codec_context (c : option AVCodecContext) (s : impl) : impl :=
  {| event_subject_ := event_subject_ s; log_ := log_ s; index_ := index_ s;
     codec_context_ := c; packets_ := packets_ s; nb_frames_ := nb_frames_ s;
     width_ := width_ s; height_ := height_ s; is_progressive_ := is_progressive_ s;
     file_frame_number_ := file_frame_number_ s |}.

Definition set_is_progressive (b : bool) (s : impl) : impl :=
  {| event_subject_ := event_subject_ s; log_ := log_ s; index_ := index_ s;
     codec_context_ := codec_context_ s; packets_ := packets_ s; nb_frames_ := nb_frames_ s;
     width_ := width_ s; height_ := height_ s; is_progressive_ := b;
     file_frame_number_ := file_frame_number_ s |}.

Definition set_file_frame_number (n : Z) (s : impl) : impl :=
  {| event_subject_ := event_subject_ s; log_ := log_ s; index_ := index_ s;
     codec_context_ := codec_context_ s; packets_ := packets_ s; nb_frames_ := nb_frames_ s;
     width_ := width_ s; height_ := height_ s; is_progressive_ := is_progressive_ s;
     file_frame_number_ := n |}.

Definition send_events (evs : list monitor_event) (s : impl) : impl :=
  {| event_subject_ := event_subject_ s ++ evs; log_ := log_ s; index_ := index_ s;
     codec_context_ := codec_context_ s; packets_ := packets_ s; nb_frames_ := nb_frames_ s;
     width_ := width_ s; height_ := height_ s; is_progressive_ := is_progressive_ s;
     file_frame_number_ := file_frame_number_ s |}.

Definition log_warning (msg : string) (s : impl) : impl :=
  {| event_subject_ := event_subject_ s; log_ := log_ s ++ [msg]; index_ := index_ s;
     codec_context_ := codec_context_ s; packets_ := packets_ s; nb_frames_ := nb_frames_ s;
     width_ := width_ s; height_ := height_ s; is_progressive_ := is_progressive_ s;
     file_frame_number_ := file_frame_number_ s |}.

(** [explicit impl()]: no codec context. *)
Definition impl_default : impl :=
  {| event_subject_ := []; log_ := []; index_ := 0; codec_context_ := None;
     packets_ := []; nb_frames_ := 0; width_ := 0; height_ := 0;
     is_progressive_ := true; file_frame_number_ := 0 |}.

(** [explicit impl(context)], from what [open_codec] found: the stream
    index, the opened codec context and the container's [nb_frames]
    (an [int64_t]). The constructor leaves [is_progressive_] without an
    initial value; [progressive0] stands for whatever it holds. *)
Definition impl_open (index : Z) (ctx : AVCodecContext) (stream_nb_frames : Z)
    (progressive0 : bool) : impl :=
  {| event_subject_ := []; log_ := []; index_ := index; codec_context_ := Some ctx;
     packets_ := []; nb_frames_ := to_uint32 stream_nb_frames;
     width_ := width ctx; height_ := height ctx;
     is_progressive_ := progressive0; file_frame_number_ := 0 |}.

(** [push]: the argument is a [shared_ptr], [None] is the null pointer. *)
Definition push (packet : option AVPacket) (s : impl) : impl :=
  match packet with
  | None => s
  | Some p =>
      if bool_decide (stream_index p = index_ s) || bool_decide (data p = None)
      then set_packets (packets_ s ++ [p]) s
      else s
  end.

Definition field_name (f : AVFrame) : string :=
  if bool_decide (interlaced_frame f = 0) then "progressive"%string
  else if bool_decide (top_field_first f ≠ 0) then "upper"%string else "lower"%string.

(** Modelled from the spec: [THROW_ON_ERROR2] of ffmpeg_error.h is not in
    the sources; "a backend decode error is fatal to that call and
    propagates to the caller", and libavcodec reports an error as a
    negative status. *)
Definition THROW_ON_ERROR2 (r : Z) (source : string) : M impl unit :=
  if bool_decide (r < 0) then throw (ffmpeg_error source r) else mret tt.

Definition pop_packet : M impl unit := modify (λ s, set_packets (tail (packets_ s)) s).

(** [decode]: dereferences [codec_context_]. *)
Definition decode (pkt : AVPacket) : M impl (option AVFrame) :=
  (octx ← gets codec_context_;
   match octx with
   | None => throw null_dereference
   | Some ctx =>
       let '(r, frame_finished, decoded_frame, bufs) :=
         avcodec_decode_video2 (codec ctx) (buffers ctx) pkt in
       modify (set_codec_context (Some (set_buffers bufs ctx)));;
       THROW_ON_ERROR2 r "[video_decocer]";;
       if bool_decide (frame_finished = 0) then mret None
       else
         modify (set_is_progressive (bool_decide (interlaced_frame decoded_frame = 0)));;
         (if bool_decide (repeat_pict decoded_frame > 0)
          then modify (log_warning "[video_decoder] Field repeat_pict not implemented.")
          else mret tt);;
         w ← gets width_;
         h ← gets height_;
         modify (send_events
                   [event_int "file/video/width" w;
                    event_int "file/video/height" h;
                    event_str "file/video/field" (field_name decoded_frame);
                    event_str "file/video/codec" (long_name (codec ctx))]);;
         modify (set_file_frame_number (to_uint32 (pts pkt)));;
         n ← gets file_frame_number_;
         mret (Some (set_frame_pts n decoded_frame))
   end).

Definition has_cap_delay (ctx : AVCodecContext) : bool :=
  bool_decide (Z.land (capabilities (codec ctx)) CODEC_CAP_DELAY ≠ 0).

Definition flush_buffers : M impl unit :=
  modify (λ s, set_codec_context
                 ((λ c, set_buffers (avcodec_flush_buffers (buffers c)) c) <$> codec_context_ s) s).

(** [poll]: [mret None] is the null frame pointer. *)
Definition poll : M impl (option video) :=
  (q ← gets packets_;
   match q with
   | [] => mret None
   | packet :: _ =>
       octx ← gets codec_context_;
       match octx with
       | None =>
           pop_packet;;
           mret (Some (if bool_decide (data packet = None) then flush_video else empty_video))
       | Some ctx =>
           if bool_decide (data packet = None) then
             video ← (if has_cap_delay ctx then decode packet else mret None);
             match video with
             | Some v => mret (Some (decoded v))
             | None =>
                 pop_packet;;
                 flush_buffers;;
                 mret (Some flush_video)
             end
           else
             pop_packet;;
             video ← decode packet;
             mret (decoded <$> video)
       end
   end).

Definition ready (s : impl) : bool := negb (bool_decide (packets_ s = [])).

(** [clear]: pops until the queue is empty. *)
Definition clear (s : impl) : impl := set_packets [] s.

Definition nb_frames (s : impl) : Z := Z.max (nb_frames_ s) (file_frame_number_ s).

(** A stream's lifetime: the calls a client makes on one decoder. A
    client that catches the exception of a [poll] goes on with the state
    the failed call left. *)
Inductive call : Type :=
  | call_push (packet : option AVPacket)
  | call_poll
  | call_clear.

Definition step (c : call) (s : impl) : impl :=
  match c with
  | call_push p => push p s
  | call_poll => (poll s).2
  | call_clear => clear s
  end.

Definition run (cs : list call) (s : impl) : impl := foldl (λ s c, step c s) s cs.

(** The decoders the two constructors build. *)
Inductive constructed : impl → Prop :=
  | constructed_default : constructed impl_default
  | constructed_open index ctx n b : constructed (impl_open index ctx n b).

(** Every queued packet is of the decoder's stream or a marker. *)
Definition own_or_marker (s : impl) (p : AVPacket) : Prop :=
  stream_index p = index_ s ∨ data p = None.

Definition queue_ok (s : impl) : Prop := Forall (own_or_marker s) (packets_ s).

End Decoder.
End VideoDecoder.


(** ** Shared declarations of core/ *)

Module Core.

(** Modelled from the spec: core/frame/pixel_format.h is not in the
    sources; "pixel_format variant ∈ {bgra, argb, rgba, abgr, ycbcr,
    ycbcra, invalid} + ordered list of Plane{width, height,
    bytesPerSample}", a packed plane being "width × height × 4 bytes", so
    that a line of a plane is [width * channels] bytes. *)
Module pixel_format.
Inductive type : Type := bgra | rgba | argb | abgr | ycbcr | ycbcra | invalid.
#[global] Instance type_eq_dec : EqDecision type.
Proof. solve_decision. Defined.
End pixel_format.

Record plane : Type := {
  plane_width : Z;
  plane_height : Z;
  plane_channels : Z
}.

Definition linesize (p : plane) : Z := plane_width p * plane_channels p.

Record pixel_format_desc : Type := {
  pix_fmt : pixel_format.type;
  planes : list plane
}.

Definition push_back_plane (p : plane) (d : pixel_format_desc) : pixel_format_desc :=
  {| pix_fmt := pix_fmt d; planes := planes d ++ [p] |}.

(** Modelled from the spec: core/video_format.h is not in the sources;
    the output modes are the field orders, of which the code names
    [upper] ("upper-field-first"). *)
Inductive video_mode : Type := progressive | lower | upper.
#[global] Instance video_mode_eq_dec : EqDecision video_mode.
Proof. solve_decision. Defined.

Record video_format_desc : Type := {
  format_width : Z;
  format_height : Z;
  mode : video_mode;
  fps : float
}.

End Core.

(** [static_cast<double>] of an [int]; exact on 32 bits. *)
Definition double_of_int (z : Z) : float :=
  if bool_decide (z < 0)
  then PrimFloat.opp (PrimFloat.of_uint63 (Uint63.of_Z (- z)))
  else PrimFloat.of_uint63 (Uint63.of_Z z).

(** Conversion of an integer to an unsigned type of [bits] bits. *)
Definition to_unsigned (bits z : Z) : Z := z mod 2 ^ bits.

(** Conversion to [int]. *)
Definition to_int (z : Z) : Z := (z + 2 ^ 31) mod 2 ^ 32 - 2 ^ 31.

(** ** The converting decoder, [caspar::core::ffmpeg::video_decoder] *)

Module Converter.
Import Core.

(** libavutil's [enum PixelFormat]: the members the code names, and the
    others by their number. *)
Inductive PixelFormat : Type :=
  | PIX_FMT_BGRA | PIX_FMT_ARGB | PIX_FMT_RGBA | PIX_FMT_ABGR
  | PIX_FMT_YUV444P | PIX_FMT_YUV422P | PIX_FMT_YUV420P
  | PIX_FMT_YUV411P | PIX_FMT_YUV410P | PIX_FMT_YUVA420P
  | PIX_FMT_other (number : Z).

Inductive CodecID : Type :=
  | CODEC_ID_DVVIDEO
  | CODEC_ID_other (number : Z).
#[global] Instance CodecID_eq_dec : EqDecision CodecID.
Proof. solve_decision. Defined.

Definition get_pixel_format (pix_fmt : PixelFormat) : pixel_format.type :=
  match pix_fmt with
  | PIX_FMT_BGRA => pixel_format.bgra
  | PIX_FMT_ARGB => pixel_format.argb
  | PIX_FMT_RGBA => pixel_format.rgba
  | PIX_FMT_ABGR => pixel_format.abgr
  | PIX_FMT_YUV444P => pixel_format.ycbcr
  | PIX_FMT_YUV422P => pixel_format.ycbcr
  | PIX_FMT_YUV420P => pixel_format.ycbcr
  | PIX_FMT_YUV411P => pixel_format.ycbcr
  | PIX_FMT_YUV410P => pixel_format.ycbcr
  | PIX_FMT_YUVA420P => pixel_format.ycbcra
  | PIX_FMT_other _ => pixel_format.invalid
  end.

(** [AVPicture]: four plane pointers and four strides. Filled over a null
    base, a pointer is its offset. *)
Record AVPicture : Type := {
  pict_data : nat → Z;
  pict_linesize : nat → Z
}.

(** A decoded [AVFrame]: the bytes of each plane and its stride. *)
Record AVFrame : Type := {
  frame_data : nat → list Byte.byte;
  frame_linesize : nat → Z
}.

Record AVRational : Type := { num : Z; den : Z }.

(** Modelled from the spec: mixer/image/image_transform.h is not in the
    sources; of the "output transform" the decoder sets the translation. *)
Record image_transform : Type := {
  image_translation : float * float
}.

Definition set_image_translation (x y : float) (t : image_transform) : image_transform :=
  {| image_translation := (x, y) |}.

(** [write_frame]: one buffer per plane, and the transform. *)
Record write_frame : Type := {
  image_data : list (list Byte.byte);
  get_image_transform : image_transform
}.

Definition set_image_data (d : list (list Byte.byte)) (w : write_frame) : write_frame :=
  {| image_data := d; get_image_transform := get_image_transform w |}.

Definition update_image_transform (f : image_transform → image_transform)
    (w : write_frame) : write_frame :=
  {| image_data := image_data w; get_image_transform := f (get_image_transform w) |}.

(** The [frame_factory] interface. *)
Record frame_factory : Type := {
  get_video_format_desc : video_format_desc;
  create_frame : pixel_format_desc → write_frame
}.

(** libavcodec and libswscale, as far as the decoder calls them, and the
    width of [size_t] on the target. *)
Class Libav : Type := {
  size_t_bits : Z;
  codec_state : Type;
  SwsContext : Type;
  avpicture_fill : PixelFormat → Z → Z → AVPicture;
  avcodec_decode_video : codec_state → list Byte.byte → Z * Z * AVFrame * codec_state;
  sws_getContext : Z → Z → PixelFormat → Z → Z → PixelFormat → option SwsContext;
  sws_scale : SwsContext → AVFrame → Z → Z → AVPicture → list Byte.byte → list Byte.byte
}.

Section Converter.
Context `{libav : Libav}.

Definition to_size_t (z : Z) : Z := to_unsigned size_t_bits z.

(** [pixel_format_desc::plane(width, height, channels)], of [size_t]s. *)
Definition plane_of (width height channels : Z) : plane :=
  {| plane_width := to_size_t width; plane_height := to_size_t height;
     plane_channels := to_size_t channels |}.

(** [get_pixel_format_desc]. The chroma height is a quotient by the
    second stride, which libavcodec makes positive for the planar formats
    at a positive width; the quotient is meant there. *)
Definition get_pixel_format_desc (pix_fmt : PixelFormat) (width height : Z)
    : pixel_format_desc :=
  let dummy_pict := avpicture_fill pix_fmt (to_int width) (to_int height) in
  let desc := {| pix_fmt := get_pixel_format pix_fmt; planes := [] |} in
  match Core.pix_fmt desc with
  | pixel_format.bgra | pixel_format.argb | pixel_format.rgba | pixel_format.abgr =>
      push_back_plane (plane_of (pict_linesize dummy_pict 0 `quot` 4) height 4) desc
  | pixel_format.ycbcr | pixel_format.ycbcra =>
      let size2 := to_size_t (pict_data dummy_pict 2 - pict_data dummy_pict 1) in
      let h2 := size2 `div` to_size_t (pict_linesize dummy_pict 1) in
      let desc := push_back_plane (plane_of (pict_linesize dummy_pict 0) height 1) desc in
      let desc := push_back_plane (plane_of (pict_linesize dummy_pict 1) h2 1) desc in
      let desc := push_back_plane (plane_of (pict_linesize dummy_pict 2) h2 1) desc in
      if bool_decide (Core.pix_fmt desc = pixel_format.ycbcra)
      then push_back_plane (plane_of (pict_linesize dummy_pict 3) height 1) desc
      else desc
  | pixel_format.invalid =>
      {| pix_fmt := pixel_format.invalid; planes := planes desc |}
  end.

(** The fields of [AVCodecContext] the decoder reads, and the codec's
    own state behind the pointer. *)
Record AVCodecContext : Type := {
  width : Z;
  height : Z;
  ctx_pix_fmt : PixelFormat;
  time_base : AVRational;
  codec_id : CodecID;
  codec : codec_state
}.

Definition set_codec (st : codec_state) (c : AVCodecContext) : AVCodecContext :=
  {| width := width c; height := height c; ctx_pix_fmt := ctx_pix_fmt c;
     time_base := time_base c; codec_id := codec_id c; codec := st |}.

(** [struct video_decoder::implementation]. *)
Record implementation : Type := {
  frame_factory_ : frame_factory;
  sws_context_ : option SwsContext;
  codec_context_ : AVCodecContext;
  width_ : Z;
  height_ : Z;
  pix_fmt_ : PixelFormat;
  desc_ : pixel_format_desc
}.

Definition set_codec_context (c : AVCodecContext) (s : implementation) : implementation :=
  {| frame_factory_ := frame_factory_ s; sws_context_ := sws_context_ s;
     codec_context_ := c; width_ := width_ s; height_ := height_ s;
     pix_fmt_ := pix_fmt_ s; desc_ := desc_ s |}.

Definition frame_time_tolerance : float := 0x1.a36e2eb1c432dp-14%float.

(** The frame interval of the stream and of the output format. *)
Definition frame_time (c : AVCodecContext) : float :=
  (double_of_int (num (time_base c)) / double_of_int (den (time_base c)))%float.

Definition format_frame_time (f : frame_factory) : float :=
  (1 / fps (get_video_format_desc f))%float.

Definition framerate_mismatch (c : AVCodecContext) (f : frame_factory) : bool :=
  (frame_time_tolerance <? PrimFloat.abs (frame_time c - format_frame_time f))%float.

(** The constructor: the members in declaration order, then the body.
    It returns the object or the exception it throws, with the warnings
    it logged. [abs] is the [double] overload. *)
Definition implementation_new (codec_context : AVCodecContext) (factory : frame_factory)
    : (exn + implementation) * list string :=
  let width_ := width codec_context in
  let height_ := height codec_context in
  let pix_fmt_ := ctx_pix_fmt codec_context in
  let desc_ := get_pixel_format_desc pix_fmt_ width_ height_ in
  if framerate_mismatch codec_context factory
  then (inl (file_read_error "Invalid video framerate." (frame_time codec_context)), [])
  else if bool_decide (pix_fmt desc_ = pixel_format.invalid)
  then
    let warnings := ["Hardware accelerated color transform not supported."%string] in
    let desc_ := get_pixel_format_desc PIX_FMT_BGRA width_ height_ in
    match sws_getContext width_ height_ pix_fmt_ width_ height_ PIX_FMT_BGRA with
    | None =>
        (inl (operation_failed "Could not create software scaling context." "sws_getContext"),
         warnings)
    | Some sws =>
        (inr {| frame_factory_ := factory; sws_context_ := Some sws;
                codec_context_ := codec_context; width_ := width_; height_ := height_;
                pix_fmt_ := pix_fmt_; desc_ := desc_ |}, warnings)
    end
  else
    (inr {| frame_factory_ := factory; sws_context_ := None;
            codec_context_ := codec_context; width_ := width_; height_ := height_;
            pix_fmt_ := pix_fmt_; desc_ := desc_ |}, []).

(** [std::copy_n(src + from, count, dst + to)] on buffers that hold the
    ranges. *)
Definition copy_n (src : list Byte.byte) (from count : Z) (dst : list Byte.byte) (to : Z)
    : list Byte.byte :=
  let bytes := take (Z.to_nat count) (drop (Z.to_nat from) src) in
  take (Z.to_nat to) dst ++ bytes ++ drop (Z.to_nat to + length bytes) dst.

(** The inner [parallel_for]: the scanlines of plane [n]. The lines are
    written to disjoint ranges, so they are taken in order. *)
Definition copy_plane (p : plane) (decoded : list Byte.byte) (decoded_linesize : Z)
    (result : list Byte.byte) : list Byte.byte :=
  foldl (λ result (y : nat),
           copy_n decoded (Z.of_nat y * decoded_linesize) (linesize p)
                  result (Z.of_nat y * linesize p))
        result (seq 0 (Z.to_nat (to_int (plane_height p)))).

(** The outer [parallel_for]: the planes of [desc_]. *)
Definition copy_planes (desc : pixel_format_desc) (decoded_frame : AVFrame)
    (write : write_frame) : write_frame :=
  foldl (λ write (n : nat),
           match planes desc !! n with
           | Some p =>
               set_image_data
                 (<[n := copy_plane p (frame_data decoded_frame n)
                           (frame_linesize decoded_frame n)
                           (default [] (image_data write !! n))]> (image_data write))
                 write
           | None => write
           end)
        write (seq 0 (Z.to_nat (to_int (Z.of_nat (length (planes desc)))))).

(** The [sws_scale] branch: the whole picture into the first buffer. *)
Definition scale_into (sws : SwsContext) (s : implementation) (decoded_frame : AVFrame)
    (write : write_frame) : write_frame :=
  let av_frame := avpicture_fill PIX_FMT_BGRA (width_ s) (height_ s) in
  set_image_data
    (<[0%nat := sws_scale sws decoded_frame 0 (height_ s) av_frame
                  (default [] (image_data write !! 0%nat))]> (image_data write))
    write.

Definition needs_field_correction (s : implementation) : bool :=
  bool_decide (codec_id (codec_context_ s) = CODEC_ID_DVVIDEO)
  && bool_decide (mode (get_video_format_desc (frame_factory_ s)) = upper).

Definition execute (video_packet : list Byte.byte) : M implementation write_frame :=
  ctx ← gets codec_context_;
  let '(result, frame_finished, decoded_frame, st) :=
    avcodec_decode_video (codec ctx) video_packet in
  modify (set_codec_context (set_codec st ctx));;
  if bool_decide (result < 0)
  then throw (invalid_operation "avcodec_decode_video failed")
  else
    s ← gets id;
    let write := create_frame (frame_factory_ s) (desc_ s) in
    let write :=
      match sws_context_ s with
      | None => copy_planes (desc_ s) decoded_frame write
      | Some sws => scale_into sws s decoded_frame write
      end in
    let write :=
      if needs_field_correction s
      then update_image_transform
             (set_image_translation 0 (1 / double_of_int (height_ s))) write
      else write in
    mret write.

End Converter.
End Converter.

(** ** The mixer, [caspar::core::mixer], and [mixed_frame] *)

Module Mixer.
Import Core.

(** Modelled from the spec: the enumeration of blend modes is not in the
    sources; a layer's "blend mode (defaults to "normal")", the "others
    are alternate blend operators", here by their number. *)
Inductive blend_mode : Type :=
  | normal
  | blend_mode_other (number : Z).

(** The two mixers, the layer contents and what the mixers produce are
    outside this translation unit: an interface. Each operation acts on
    its mixer's state and may throw. *)
Class Collaborators : Type := {
  draw_frame : Type;
  audio_mixer : Type;
  image_mixer : Type;
  audio_buffer : Type;
  image_future : Type;
  begin_layer : blend_mode → M image_mixer unit;
  accept_image : draw_frame → M image_mixer unit;
  end_layer : M image_mixer unit;
  image_call : video_format_desc → M image_mixer image_future;
  accept_audio : draw_frame → M audio_mixer unit;
  audio_call : video_format_desc → M audio_mixer audio_buffer
}.

Section Mixer.
Context `{collaborators : Collaborators}.

(** [struct mixed_frame]; [tag_] is an address. *)
Record mixed_frame : Type := {
  image_data_ : image_future;
  audio_data_ : audio_buffer;
  video_desc_ : video_format_desc;
  pixel_desc_ : pixel_format_desc;
  tag_ : Z
}.

Definition mixed_frame_new (tag : Z) (image_data : image_future) (audio_data : audio_buffer)
    (format_desc : video_format_desc) : mixed_frame :=
  {| tag_ := tag; image_data_ := image_data; audio_data_ := audio_data;
     video_desc_ := format_desc;
     pixel_desc_ :=
       push_back_plane
         {| plane_width := format_width format_desc;
            plane_height := format_height format_desc; plane_channels := 4 |}
         {| pix_fmt := pixel_format.bgra; planes := [] |} |}.

(** The const accessors. *)
Definition image_data_const (index : Z) (f : mixed_frame) : image_future := image_data_ f.
Definition audio_data_const (f : mixed_frame) : audio_buffer := audio_data_ f.
Definition get_pixel_format_desc (f : mixed_frame) : pixel_format_desc := pixel_desc_ f.
Definition get_frame_rate (f : mixed_frame) : float := fps (video_desc_ f).
Definition width (f : mixed_frame) : Z := format_width (video_desc_ f).
Definition height (f : mixed_frame) : Z := format_height (video_desc_ f).
Definition tag (f : mixed_frame) : Z := tag_ f.

(** The non-const accessors, which would hand out writable storage. *)
Definition image_data (index : Z) : M mixed_frame (list Byte.byte) :=
  throw (invalid_operation "").

Definition audio_data : M mixed_frame audio_buffer :=
  throw (invalid_operation "").

(** What a tick returns: [data_frame::empty()] or a mixed frame. *)
Inductive data_frame : Type :=
  | data_frame_empty
  | data_frame_mixed (f : mixed_frame).

(** The calls made on the two mixers, in the order they are made: a
    record kept beside the state, which nothing reads. *)
Inductive mixer_call : Type :=
  | call_begin_layer (mode : blend_mode)
  | call_accept_audio (frame : draw_frame)
  | call_accept_image (frame : draw_frame)
  | call_end_layer
  | call_image (format_desc : video_format_desc)
  | call_audio (format_desc : video_format_desc).

(** The task [set_blend_mode] submits, with what its closure captured. *)
Record blend_task : Type := {
  task_index : Z;
  task_value : blend_mode
}.

(** Modelled from the spec: the executor of common/concurrency is not in
    the sources. It is "a single-worker serialized task queue":
    [begin_invoke] with [high_priority] queues a task on the "priority
    channel drained first", [invoke] runs its task on the worker after
    the tasks queued before it and waits for the result, "each runs to
    completion before the next starts". A caller blocked in [invoke]
    leaves no task behind, so the queue holds priority tasks only. *)
Definition executor : Type := list blend_task.

(** [struct mixer::impl]; [this_] is its address, [calls_] the record of
    calls and [log_] the exceptions logged. *)
Record impl : Type := {
  this_ : Z;
  audio_mixer_ : audio_mixer;
  image_mixer_ : image_mixer;
  blend_modes_ : gmap Z blend_mode;
  executor_ : executor;
  calls_ : list mixer_call;
  log_ : list exn
}.

Definition set_audio_mixer (a : audio_mixer) (s : impl) : impl :=
  {| this_ := this_ s; audio_mixer_ := a; image_mixer_ := image_mixer_ s;
     blend_modes_ := blend_modes_ s; executor_ := executor_ s;
     calls_ := calls_ s; log_ := log_ s |}.

Definition set_image_mixer (i : image_mixer) (s : impl) : impl :=
  {| this_ := this_ s; audio_mixer_ := audio_mixer_ s; image_mixer_ := i;
     blend_modes_ := blend_modes_ s; executor_ := executor_ s;
     calls_ := calls_ s; log_ := log_ s |}.

Definition set_blend_modes (m : gmap Z blend_mode) (s : impl) : impl :=
  {| this_ := this_ s; audio_mixer_ := audio_mixer_ s; image_mixer_ := image_mixer_ s;
     blend_modes_ := m; executor_ := executor_ s;
     calls_ := calls_ s; log_ := log_ s |}.

Definition set_executor (e : executor) (s : impl) : impl :=
  {| this_ := this_ s; audio_mixer_ := audio_mixer_ s; image_mixer_ := image_mixer_ s;
     blend_modes_ := blend_modes_ s; executor_ := e;
     calls_ := calls_ s; log_ := log_ s |}.

Definition record_call (c : mixer_call) (s : impl) : impl :=
  {| this_ := this_ s; audio_mixer_ := audio_mixer_ s; image_mixer_ := image_mixer_ s;
     blend_modes_ := blend_modes_ s; executor_ := executor_ s;
     calls_ := calls_ s ++ [c]; log_ := log_ s |}.

Definition log_exception (e : exn) (s : impl) : impl :=
  {| this_ := this_ s; audio_mixer_ := audio_mixer_ s; image_mixer_ := image_mixer_ s;
     blend_modes_ := blend_modes_ s; executor_ := executor_ s;
     calls_ := calls_ s; log_ := log_ s ++ [e] |}.

(** [impl(ogl)]. *)
Definition impl_new (this : Z) (a : audio_mixer) (i : image_mixer) : impl :=
  {| this_ := this; audio_mixer_ := a; image_mixer_ := i; blend_modes_ := ∅;
     executor_ := []; calls_ := []; log_ := [] |}.

(** A call on [image_mixer_], on [audio_mixer_]. *)
Definition on_image {A} (c : mixer_call) (m : M image_mixer A) : M impl A :=
  λ s, let '(r, i) := m (image_mixer_ s) in (r, set_image_mixer i (record_call c s)).

Definition on_audio {A} (c : mixer_call) (m : M audio_mixer A) : M impl A :=
  λ s, let '(r, a) := m (audio_mixer_ s) in (r, set_audio_mixer a (record_call c s)).

(** The body of [BOOST_FOREACH]: one layer. *)
Definition mix_layer (frame : Z * draw_frame) : M impl unit :=
  blend_it ← gets (λ s, blend_modes_ s !! frame.1);
  on_image (call_begin_layer (default normal blend_it))
           (begin_layer (default normal blend_it));;
  on_audio (call_accept_audio frame.2) (accept_audio frame.2);;
  on_image (call_accept_image frame.2) (accept_image frame.2);;
  on_image call_end_layer end_layer.

(** [BOOST_FOREACH(auto& frame, frames)] over a [std::map]: the layers by
    ascending index. *)
Fixpoint mix_layers (frames : list (Z * draw_frame)) : M impl unit :=
  match frames with
  | [] => mret tt
  | frame :: frames => mix_layer frame;; mix_layers frames
  end.

(** The [try] block. *)
Definition compose (frames : list (Z * draw_frame)) (format_desc : video_format_desc)
    : M impl data_frame :=
  mix_layers frames;;
  image ← on_image (call_image format_desc) (image_call format_desc);
  audio ← on_audio (call_audio format_desc) (audio_call format_desc);
  this ← gets this_;
  mret (data_frame_mixed (mixed_frame_new this image audio format_desc)).

(** The task [operator()] submits. *)
Definition tick (frames : list (Z * draw_frame)) (format_desc : video_format_desc)
    : M impl data_frame :=
  try_catch (compose frames format_desc)
            (λ e, modify (log_exception e);; mret data_frame_empty).

(** The task [set_blend_mode] submits. *)
Definition run_blend_task (t : blend_task) (s : impl) : impl :=
  match blend_modes_ s !! task_index t with
  | None => set_blend_modes (<[task_index t := task_value t]> (blend_modes_ s)) s
  | Some _ => set_blend_modes (alter (λ _, task_value t) (task_index t) (blend_modes_ s)) s
  end.

(** The worker takes the task at the front of the queue. *)
Definition worker_step (s : impl) : impl :=
  match executor_ s with
  | [] => s
  | t :: queue => run_blend_task t (set_executor queue s)
  end.

Definition worker_run (steps : nat) (s : impl) : impl := Nat.iter steps worker_step s.

(** [executor_.begin_invoke(task, high_priority)]. *)
Definition executor_begin_invoke (t : blend_task) (s : impl) : impl :=
  set_executor (executor_ s ++ [t]) s.

(** [executor_.invoke(task)]: the worker reaches the task when the queue
    before it is done. *)
Definition executor_invoke {A} (task : M impl A) : M impl A :=
  λ s, task (worker_run (length (executor_ s)) s).

(** [operator()]. *)
Definition operator_call (frames : list (Z * draw_frame))
    (format_desc : video_format_desc) : M impl data_frame :=
  executor_invoke (tick frames format_desc).

Definition set_blend_mode (index : Z) (value : blend_mode) (s : impl) : impl :=
  executor_begin_invoke {| task_index := index; task_value := value |} s.

(** What a queue of [set_blend_mode] tasks makes of a blend-mode table. *)
Definition apply_blend_tasks (queue : list blend_task) (table : gmap Z blend_mode)
    : gmap Z blend_mode :=
  foldl (λ table t, <[task_index t := task_value t]> table) table queue.

(** The calls a tick makes when nothing throws, for a blend-mode table. *)
Definition layer_calls (table : gmap Z blend_mode) (frame : Z * draw_frame)
    : list mixer_call :=
  [call_begin_layer (default normal (table !! frame.1));
   call_accept_audio frame.2; call_accept_image frame.2; call_end_layer].

Definition tick_calls (table : gmap Z blend_mode) (frames : list (Z * draw_frame))
    (format_desc : video_format_desc) : list mixer_call :=
  concat (layer_calls table <$> frames) ++ [call_image format_desc; call_audio format_desc].

(** What a tick leaves of the mixer apart from the two mixers' states,
    the record of calls and the log. *)
Definition same_frame (s s' : impl) : Prop :=
  this_ s' = this_ s ∧ blend_modes_ s' = blend_modes_ s ∧ executor_ s' = executor_ s.

(** A computation made the calls of a script: in order, all of them if
    it returned, some first ones if it threw. *)
Definition made_calls {A} (s : impl) (r : exn + A) (s' : impl)
    (script : list mixer_call) : Prop :=
  ∃ made, calls_ s' = calls_ s ++ made ∧ made `prefix_of` script ∧
    (∀ a, r = inr a → made = script).

End Mixer.
End Mixer.

(** ** Concrete collaborators

    Small stand-ins for the external collaborators, on which the model is
    run at concrete inputs. *)

Module Samples.
Import VideoDecoder.

Definition blank_frame : AVFrame :=
  {| interlaced_frame := 0; top_field_first := 0; repeat_pict := 0;
     frame_pts := 0; picture := [] |}.

Definition picture_of (bytes : list Byte.byte) : AVFrame :=
  {| interlaced_frame := 0; top_field_first := 0; repeat_pict := 0;
     frame_pts := 0; picture := bytes |}.

(** A codec that rejects an empty payload, hands each picture out at once
    when its delay bit is clear, and holds one picture back when it is
    set; the marker drains the pictures held back. *)
Definition sample_decode (c : AVCodec) (held : list AVFrame) (pkt : AVPacket)
    : Z * Z * AVFrame * list AVFrame :=
  match data pkt with
  | Some [] => (-1, 0, blank_frame, held)
  | Some bytes =>
      if bool_decide (Z.land (capabilities c) 32 = 0)
      then (Z.of_nat (length bytes), 1, picture_of bytes, held)
      else match held with
           | [] => (Z.of_nat (length bytes), 0, blank_frame, [picture_of bytes])
           | f :: rest => (Z.of_nat (length bytes), 1, f, rest ++ [picture_of bytes])
           end
  | None =>
      match held with
      | [] => (0, 0, blank_frame, [])
      | f :: rest => (0, 1, f, rest)
      end
  end.

Definition sample_backend : CodecBackend :=
  Build_CodecBackend (list AVFrame) 32 sample_decode (λ _, []).

Definition plain_codec : AVCodec := {| capabilities := 0; long_name := "plain" |}.
Definition delay_codec : AVCodec := {| capabilities := 32; long_name := "delayed" |}.

Definition context_of (c : AVCodec) (held : list AVFrame) : @AVCodecContext sample_backend :=
  @Build_AVCodecContext sample_backend c 720 576 held.

Definition packet (index : Z) (byte : Byte.byte) (t : Z) : AVPacket :=
  {| stream_index := index; data := Some [byte]; pts := t |}.

Definition marker (index : Z) : AVPacket :=
  {| stream_index := index; data := None; pts := 0 |}.

(** Stream 0 of a container that announces no frame count. *)
Definition plain_decoder : @impl sample_backend :=
  impl_open 0 (context_of plain_codec []) 0 true.

Definition delay_decoder (held : list AVFrame) : @impl sample_backend :=
  impl_open 0 (context_of delay_codec held) 0 true.


(** A packet the sample codec rejects. *)
Definition corrupt (index t : Z) : AVPacket :=
  {| stream_index := index; data := Some []; pts := t |}.

(** A run on stream 0: pictures arrive in decoding order, a B-picture
    after the P-picture it depends on. *)
Definition reordered : list call :=
  [call_push (Some (packet 0 Byte.x61 1)); call_push (Some (packet 0 Byte.x62 4));
   call_push (Some (packet 0 Byte.x63 2)); call_poll; call_poll].

Definition scenario : list call :=
  [call_push (Some (packet 0 Byte.x61 1)); call_push (Some (packet 0 Byte.x62 2));
   call_push (Some (packet 0 Byte.x63 3)); call_push (Some (marker 0))].

(** The decoded picture in what [poll] returned, if any. *)
Definition yielded (r : exn + option video) : option AVFrame :=
  match r with
  | inr (Some (decoded f)) => Some f
  | _ => None
  end.

(** A libav whose picture layout is that of the planar formats: full
    luma lines, chroma lines and rows halved for 4:2:0; whose decoder
    rejects the empty packet. *)
Definition sample_fill (f : Converter.PixelFormat) (w h : Z) : Converter.AVPicture :=
  match Converter.get_pixel_format f with
  | Core.pixel_format.ycbcr | Core.pixel_format.ycbcra =>
      let cw := (w + 1) `div` 2 in
      let ch := (h + 1) `div` 2 in
      {| Converter.pict_data := λ n,
           match n with
           | O => 0 | 1%nat => w * h | 2%nat => w * h + cw * ch
           | _ => w * h + 2 * cw * ch
           end;
         Converter.pict_linesize := λ n,
           match n with O => w | 1%nat | 2%nat => cw | _ => w end |}
  | _ => {| Converter.pict_data := λ _, 0;
            Converter.pict_linesize := λ n, match n with O => 4 * w | _ => 0 end |}
  end.

Definition sample_picture (bytes : list Byte.byte) : Converter.AVFrame :=
  {| Converter.frame_data := λ _, bytes; Converter.frame_linesize := λ _, 2 |}.

Definition sample_decode_video (st : unit) (bytes : list Byte.byte)
    : Z * Z * Converter.AVFrame * unit :=
  match bytes with
  | [] => (-1, 0, sample_picture [], tt)
  | _ => (Z.of_nat (length bytes), 1, sample_picture bytes, tt)
  end.

Definition sample_libav : Converter.Libav :=
  Converter.Build_Libav 32 unit unit sample_fill sample_decode_video
    (λ _ _ _ _ _ _, Some tt) (λ _ _ _ _ _ dst, dst).

Definition two_by_two : Core.plane :=
  {| Core.plane_width := 2; Core.plane_height := 2; Core.plane_channels := 1 |}.

(** Two lines of two bytes in a decoded plane of stride 3. *)
Definition padded_lines : list Byte.byte :=
  [Byte.x0a; Byte.x0b; Byte.xff; Byte.x0c; Byte.x0d; Byte.xff].

Definition zeros : list Byte.byte := [Byte.x00; Byte.x00; Byte.x00; Byte.x00].

Definition sample_factory (m : Core.video_mode) (rate : float) : Converter.frame_factory :=
  {| Converter.get_video_format_desc :=
       {| Core.format_width := 720; Core.format_height := 576;
          Core.mode := m; Core.fps := rate |};
     Converter.create_frame d :=
       {| Converter.image_data :=
            (λ p, replicate (Z.to_nat (Core.linesize p * Core.plane_height p)) Byte.x00)
              <$> Core.planes d;
          Converter.get_image_transform := {| Converter.image_translation := (0, 0)%float |} |} |}.

Definition sample_context (id : Converter.CodecID) (f : Converter.PixelFormat) (n d : Z)
    : @Converter.AVCodecContext sample_libav :=
  @Converter.Build_AVCodecContext sample_libav 2 2 f
    {| Converter.num := n; Converter.den := d |} id tt.

(** Mixers that add up and list what they are given; a layer of negative
    content makes the image mixer throw. *)
Definition sample_collaborators : Mixer.Collaborators :=
  Mixer.Build_Collaborators Z Z (list Z) Z (list Z)
    (λ _ i, (inr tt, i))
    (λ f i, if bool_decide (f < 0)
            then (inl (foreign_exception "bad layer"), i)
            else (inr tt, i ++ [f]))
    (λ i, (inr tt, i))
    (λ _ i, (inr i, []))
    (λ f a, (inr tt, a + f))
    (λ _ a, (inr a, 0)).

Definition sample_mixer : @Mixer.impl sample_collaborators :=
  @Mixer.impl_new sample_collaborators 4096 0 [].

Definition content (z : Z) : @Mixer.draw_frame sample_collaborators := z.

Definition layer (index z : Z) : Z * @Mixer.draw_frame sample_collaborators :=
  (index, content z).

Definition pal : Core.video_format_desc :=
  {| Core.format_width := 720; Core.format_height := 576;
     Core.mode := Core.upper; Core.fps := 25 |}.

End Samples.

(** ** Further members and client loops *)

Module VideoDecoderMore.
Import VideoDecoder.

Section Decoder.
Context `{backend : CodecBackend}.

(** [print]: dereferences [codec_context_]. *)
Definition print (s : impl) : exn + string :=
  match codec_context_ s with
  | None => inl null_dereference
  | Some ctx => inr ("[video-decoder] " ++ long_name (codec ctx))%string
  end.

(** The accessors of the public class. *)
Definition file_frame_number (s : impl) : Z := file_frame_number_ s.
Definition is_progressive (s : impl) : bool := is_progressive_ s.

(** A client that calls [poll] a number of times and keeps what each call
    gave, going on after an exception. *)
Fixpoint polls (n : nat) (s : impl) : list (exn + option video) * impl :=
  match n with
  | O => ([], s)
  | S n =>
      let '(r, s1) := poll s in
      let '(rs, s2) := polls n s1 in
      (r :: rs, s2)
  end.

(** The events [decode] sends for a picture. *)
Definition picture_events (s : impl) (ctx : AVCodecContext) (f : AVFrame)
    : list monitor_event :=
  [event_int "file/video/width" (width_ s);
   event_int "file/video/height" (height_ s);
   event_str "file/video/field" (field_name f);
   event_str "file/video/codec" (long_name (codec ctx))].

End Decoder.
End VideoDecoderMore.

Module ConverterMore.
Import Core Converter.

Section Converter.
Context `{libav : Libav}.

(** The scanline copies of [copy_plane], over any list of rows. *)
Definition copy_rows (p : plane) (decoded : list Byte.byte) (decoded_linesize : Z)
    (rows : list nat) (result : list Byte.byte) : list Byte.byte :=
  foldl (λ result (y : nat),
           copy_n decoded (Z.of_nat y * decoded_linesize) (linesize p)
                  result (Z.of_nat y * linesize p))
        result rows.

End Converter.
End ConverterMore.

Module MixerMore.
Import Core Mixer.

Section Mixer.
Context `{collaborators : Collaborators}.

(** Layers begun and not ended by a run of calls. *)
Fixpoint open_layers (calls : list mixer_call) : Z :=
  match calls with
  | [] => 0
  | call_begin_layer _ :: calls => 1 + open_layers calls
  | call_end_layer :: calls => open_layers calls - 1
  | _ :: calls => open_layers calls
  end.

End Mixer.
End MixerMore.
(** * Properties *)

Ltac run_M :=
  unfold mbind, M_bind, mret, M_ret, gets, modify, throw, try_catch in *; simpl in *.

Module DecoderProps.
Import VideoDecoder.

Section Decoder.
Context `{backend : CodecBackend}.

(** What [decode] can and cannot touch. *)
Lemma decode_frame_rule pkt s r s' :
  decode pkt s = (r, s') →
  index_ s' = index_ s ∧ packets_ s' = packets_ s ∧ nb_frames_ s' = nb_frames_ s ∧
  (codec_context_ s = None → codec_context_ s' = None) ∧
  match r with
  | inr (Some f) =>
      file_frame_number_ s' = to_uint32 (pts pkt) ∧ frame_pts f = to_uint32 (pts pkt)
  | _ => file_frame_number_ s' = file_frame_number_ s
  end.
Proof.
  unfold decode, THROW_ON_ERROR2. run_M.
  destruct (codec_context_ s) as [ctx|] eqn:Hctx.
  - destruct (avcodec_decode_video2 _ _ _) as [[[st ff] fr] bufs].
    run_M. repeat (case_bool_decide; run_M); intros [= <- <-]; simpl; by rewrite ?Hctx.
  - intros [= <- <-]. by rewrite Hctx.
Qed.


(** [poll] decodes nothing but the packet at the front of the queue. *)
Lemma poll_frame_rule s r s' :
  poll s = (r, s') →
  index_ s' = index_ s ∧ nb_frames_ s' = nb_frames_ s ∧
  (packets_ s' = packets_ s ∨ packets_ s' = tail (packets_ s)) ∧
  match r with
  | inr (Some (decoded f)) =>
      ∃ p rest, packets_ s = p :: rest ∧
        (decode p s = (inr (Some f), s') ∨
         decode p (set_packets rest s) = (inr (Some f), s')) ∧
        file_frame_number_ s' = to_uint32 (pts p) ∧ frame_pts f = to_uint32 (pts p)
  | _ => file_frame_number_ s' = file_frame_number_ s
  end.
Proof.
  unfold poll, pop_packet, flush_buffers. run_M.
  destruct (packets_ s) as [|p rest] eqn:Hq.
  { intros [= <- <-]. by rewrite Hq; auto. }
  destruct (codec_context_ s) as [ctx|] eqn:Hctx; run_M.
  2: { intros [= <- <-]. rewrite Hq. simpl. by case_bool_decide; auto. }
  case_bool_decide as Hdata.
  - destruct (has_cap_delay ctx).
    + destruct (decode p s) as [[e|[f|]] s1] eqn:Hdec;
        destruct (decode_frame_rule _ _ _ _ Hdec) as (Hi & Hp & Hn & Hc & Hf);
        intros [= <- <-]; simpl; rewrite ?Hq in *.
      * by auto.
      * destruct Hf. repeat split; [done..| by auto |]. exists p, rest. by auto.
      * rewrite Hp. simpl. by auto.
    + run_M. intros [= <- <-]. simpl. by rewrite Hq; auto.
  - destruct (decode p (set_packets (tail (packets_ s)) s)) as [[e|[f|]] s1] eqn:Hdec;
      destruct (decode_frame_rule _ _ _ _ Hdec) as (Hi & Hp & Hn & Hc & Hf);
      intros [= <- <-]; simpl in *; rewrite ?Hq in *; simpl in *.
    + by auto.
    + destruct Hf. repeat split; [done..| by auto |]. exists p, rest. by auto.
    + by auto.
Qed.

Lemma push_frame_rule p s :
  index_ (push p s) = index_ s ∧ nb_frames_ (push p s) = nb_frames_ s ∧
  file_frame_number_ (push p s) = file_frame_number_ s.
Proof. unfold push. destruct p as [p|]; [|done]. by destruct (_ || _). Qed.

Lemma step_frame_rule c s :
  index_ (step c s) = index_ s ∧ nb_frames_ (step c s) = nb_frames_ s.
Proof.
  destruct c as [p| |]; cbn [step].
  - by destruct (push_frame_rule p s) as (? & ? & _).
  - destruct (poll s) as [r s'] eqn:Hp.
    by destruct (poll_frame_rule _ _ _ Hp) as (? & ? & _).
  - done.
Qed.

Lemma run_snoc cs c s : run (cs ++ [c]) s = step c (run cs s).
Proof. unfold run. by rewrite foldl_app. Qed.

Lemma run_frame_rule cs s :
  index_ (run cs s) = index_ s ∧ nb_frames_ (run cs s) = nb_frames_ s.
Proof.
  induction cs as [|c cs IH] using rev_ind; [done|].
  rewrite run_snoc. destruct (step_frame_rule c (run cs s)) as [-> ->]. exact IH.
Qed.

Lemma queue_ok_step c s : queue_ok s → queue_ok (step c s).
Proof.
  unfold queue_ok, own_or_marker. intros Hok.
  destruct (step_frame_rule c s) as [-> _].
  destruct c as [[p|]| |]; cbn [step].
  - unfold push. destruct (_ || _) eqn:Hacc; [|done]. simpl.
    apply Forall_app. split; [done|]. apply Forall_singleton.
    apply orb_true_iff in Hacc as [H|H]; apply bool_decide_eq_true in H; auto.
  - done.
  - destruct (poll s) as [r s'] eqn:Hp. cbn [snd].
    destruct (poll_frame_rule _ _ _ Hp) as (_ & _ & [-> | ->] & _); [done|].
    destruct (packets_ s); [done|]. by eapply Forall_cons_1.
  - by apply Forall_nil.
Qed.

Lemma queue_ok_run cs s : queue_ok s → queue_ok (run cs s).
Proof.
  intros Hok. induction cs as [|c cs IH] using rev_ind; [done|].
  rewrite run_snoc. by apply queue_ok_step.
Qed.

Lemma queue_ok_constructed s : constructed s → queue_ok s.
Proof. intros []; unfold queue_ok; simpl; constructor. Qed.


(** C1 (as amended). [nb_frames()] is the larger of the container's
    nominal count and the presentation number of the picture decoded last.
    Along every sequence of calls the nominal count stays what it was and
    [nb_frames()] never drops below it; [push] and [clear] leave
    [nb_frames()] alone, and so does a [poll] that hands out no decoded
    picture or throws; a [poll] that hands out a decoded picture sets it to
    the larger of the nominal count and the front packet's timestamp
    (mod 2^32), which is no smaller than before whenever that timestamp is
    at least the previous [file_frame_number_]. *)
Theorem nb_frames_follows_last_decoded_pts (s0 : impl) (cs : list call) :
  let s := run cs s0 in
  nb_frames_ s = nb_frames_ s0 ∧
  nb_frames_ s0 ≤ nb_frames s ∧
  (∀ p, nb_frames (push p s) = nb_frames s) ∧
  nb_frames (clear s) = nb_frames s ∧
  (∀ r s', poll s = (r, s') →
     match r with
     | inr (Some (decoded f)) =>
         ∃ p rest, packets_ s = p :: rest ∧
           nb_frames s' = Z.max (nb_frames_ s0) (to_uint32 (pts p)) ∧
           (file_frame_number_ s ≤ to_uint32 (pts p) → nb_frames s ≤ nb_frames s')
     | _ => nb_frames s' = nb_frames s
     end).
Proof.
  intros s. destruct (run_frame_rule cs s0) as [_ Hn]. fold s in Hn.
  split; [done|]. split; [unfold nb_frames; lia|].
  split; [|split; [done|]].
  { intros p. unfold nb_frames. by destruct (push_frame_rule p s) as (_ & -> & ->). }
  intros r s' Hp. destruct (poll_frame_rule _ _ _ Hp) as (_ & Hn' & _ & Hr).
  unfold nb_frames. rewrite Hn'.
  destruct r as [e|[[| |f]|]]; try by rewrite Hr.
  destruct Hr as (p & rest & Hq & _ & Hf & _). exists p, rest.
  rewrite Hf, Hn. split; [done|]. split; [done|]. lia.
Qed.

(** C2. With a codec context and the end-of-stream marker at the front of
    the queue: a backend with the delayed-output capability is asked for
    one more picture, and a picture it yields is returned with the marker
    still queued; when it yields none, and when the capability is absent
    (no decode pass is made then), the marker is popped, the codec's
    buffers are flushed and the flush frame is returned. *)
Theorem poll_at_end_of_stream_marker (s : impl) ctx marker rest :
  codec_context_ s = Some ctx →
  packets_ s = marker :: rest →
  data marker = None →
  let flushed s1 :=
    set_codec_context
      ((λ c, set_buffers (avcodec_flush_buffers (buffers c)) c) <$> codec_context_ s1)
      (set_packets rest s1) in
  (has_cap_delay ctx = true → ∀ f s1,
     decode marker s = (inr (Some f), s1) →
     poll s = (inr (Some (decoded f)), s1) ∧ packets_ s1 = marker :: rest) ∧
  (has_cap_delay ctx = true → ∀ s1,
     decode marker s = (inr None, s1) →
     poll s = (inr (Some flush_video), flushed s1) ∧ packets_ (flushed s1) = rest) ∧
  (has_cap_delay ctx = false →
     poll s = (inr (Some flush_video), flushed s) ∧ packets_ (flushed s) = rest ∧
     codec_context_ (flushed s)
       = Some (set_buffers (avcodec_flush_buffers (buffers ctx)) ctx)).
Proof.
  intros Hctx Hq Hdata flushed.
  unfold poll, pop_packet, flush_buffers. run_M. rewrite Hq, Hctx. run_M.
  rewrite bool_decide_eq_true_2 by done.
  split; [|split]; intros ->.
  - intros f s1 Hdec. rewrite Hdec.
    destruct (decode_frame_rule _ _ _ _ Hdec) as (_ & -> & _). by rewrite Hq.
  - intros s1 Hdec. rewrite Hdec.
    destruct (decode_frame_rule _ _ _ _ Hdec) as (_ & Hp & _).
    run_M. subst flushed. simpl. by rewrite Hp, Hq.
  - run_M. subst flushed. simpl. by rewrite Hq, Hctx.
Qed.

(** C4. On a decoder as built by a constructor and driven by any sequence
    of calls: [push] of a packet appends it to the queue exactly when its
    stream index is the decoder's or its payload is absent, and otherwise
    changes nothing; the queue holds only such packets; and a picture that
    [poll] hands out was decoded from the packet at the front of the
    queue, which, when it carries a payload, is of the decoder's stream. *)
Theorem push_keeps_foreign_packets_out (s0 : impl) (cs : list call) :
  constructed s0 →
  let s := run cs s0 in
  (∀ p, own_or_marker s p ↔ packets_ (push (Some p) s) = packets_ s ++ [p]) ∧
  (∀ p, own_or_marker s p → push (Some p) s = set_packets (packets_ s ++ [p]) s) ∧
  (∀ p, ¬ own_or_marker s p → push (Some p) s = s) ∧
  queue_ok s ∧
  (∀ f s', poll s = (inr (Some (decoded f)), s') →
     ∃ p rest, packets_ s = p :: rest ∧
       (decode p s = (inr (Some f), s') ∨
        decode p (set_packets rest s) = (inr (Some f), s')) ∧
       own_or_marker s p ∧
       (is_Some (data p) → stream_index p = index_ s0)).
Proof.
  intros Hc s.
  assert (Hacc : ∀ p, own_or_marker s p ↔
            bool_decide (stream_index p = index_ s) || bool_decide (data p = None) = true).
  { intros p. unfold own_or_marker.
    by rewrite orb_true_iff, !bool_decide_eq_true. }
  assert (Hok : queue_ok s) by by apply queue_ok_run, queue_ok_constructed.
  split; [|split; [|split; [|split; [done|]]]].
  - intros p. rewrite Hacc. unfold push. destruct (_ || _); simpl; [done|].
    split; [done|]. intros Heq. apply (f_equal length) in Heq.
    rewrite length_app in Heq. simpl in Heq. lia.
  - intros p Hp. apply Hacc in Hp. unfold push. by rewrite Hp.
  - intros p Hp. unfold push. destruct (_ || _) eqn:E; [|done].
    by apply Hacc in E.
  - intros f s' Hp. destruct (poll_frame_rule _ _ _ Hp) as (_ & _ & _ & Hr).
    destruct Hr as (p & rest & Hq & Hdec & _). exists p, rest.
    assert (Hown : own_or_marker s p).
    { unfold queue_ok in Hok. rewrite Hq in Hok. by eapply Forall_cons_1. }
    split; [done|]. split; [done|]. split; [done|].
    intros [bytes Hb]. destruct (run_frame_rule cs s0) as [<- _].
    destruct Hown as [?|Hm]; [done|]. fold s in Hm. congruence.
Qed.

End Decoder.

Import Samples.

(** The scenario of the design notes: timestamps 1, 2, 3 and the marker,
    no delayed output, nominal count 0. *)
Example polls_in_order_then_flush :
  let s0 := run scenario plain_decoder in
  let s1 := (poll s0).2 in
  let s2 := (poll s1).2 in
  let s3 := (poll s2).2 in
  let s4 := (poll s3).2 in
  frame_pts <$> yielded (poll s0).1 = Some 1 ∧
  frame_pts <$> yielded (poll s1).1 = Some 2 ∧
  frame_pts <$> yielded (poll s2).1 = Some 3 ∧
  (poll s3).1 = inr (Some flush_video) ∧
  (poll s4).1 = inr None ∧
  nb_frames s4 = 3.
Proof. by vm_compute. Qed.

(** C1, counterexample. With nominal count 0 and packets of timestamps 1,
    4, 2 queued, [nb_frames()] is 4 after the second [poll] and 2 after
    the third. *)
Lemma nb_frames_shrinks_on_reordered_pts :
  constructed plain_decoder ∧
  nb_frames (run reordered plain_decoder) = 4 ∧
  nb_frames (run (reordered ++ [call_poll]) plain_decoder) = 2 ∧
  ¬ (nb_frames (run reordered plain_decoder)
       ≤ nb_frames (run (reordered ++ [call_poll]) plain_decoder)).
Proof.
  split; [constructor|]. split; [reflexivity|]. split; [reflexivity|].
  vm_compute. by intros H.
Qed.


(** With timestamps 1 and 4 queued and nothing decoded yet, the first
    [poll] decodes the front packet and the count follows its timestamp. *)
Lemma nb_frames_follows_last_decoded_pts_witness :
  let s := run [call_push (Some (packet 0 Byte.x61 1));
                call_push (Some (packet 0 Byte.x62 4))] plain_decoder in
  ∃ p rest, packets_ s = p :: rest ∧
    nb_frames (poll s).2 = Z.max (nb_frames_ plain_decoder) (to_uint32 (pts p)) ∧
    (file_frame_number_ s ≤ to_uint32 (pts p) → nb_frames s ≤ nb_frames (poll s).2).
Proof.
  intros s.
  destruct (nb_frames_follows_last_decoded_pts plain_decoder
              [call_push (Some (packet 0 Byte.x61 1));
               call_push (Some (packet 0 Byte.x62 4))]) as (_ & _ & _ & _ & H).
  exact (H _ _ eq_refl).
Defined.

(** The three cases at the marker: a delayed-output codec holding one
    picture, the same codec holding none, and a codec without the
    capability. *)
Lemma poll_at_end_of_stream_marker_witness :
  (let s := push (Some (marker 0)) (delay_decoder [picture_of [Byte.x61]]) in
   (poll s).1 = inr (Some (decoded (picture_of [Byte.x61]))) ∧
   packets_ (poll s).2 = [marker 0]) ∧
  (let s := push (Some (marker 0)) (delay_decoder []) in
   (poll s).1 = inr (Some flush_video) ∧ packets_ (poll s).2 = []) ∧
  (let s := push (Some (marker 0)) plain_decoder in
   (poll s).1 = inr (Some flush_video) ∧ packets_ (poll s).2 = [] ∧
   codec_context_ (poll s).2 = Some (context_of plain_codec [])).
Proof.
  split; [|split]; intros s.
  - destruct (poll_at_end_of_stream_marker s (context_of delay_codec [picture_of [Byte.x61]])
                (marker 0) [] eq_refl eq_refl eq_refl) as (H & _ & _).
    destruct (H eq_refl _ _ eq_refl) as [-> Hq]. split; [reflexivity | exact Hq].
  - destruct (poll_at_end_of_stream_marker s (context_of delay_codec [])
                (marker 0) [] eq_refl eq_refl eq_refl) as (_ & H & _).
    destruct (H eq_refl _ eq_refl) as [-> Hq]. split; [reflexivity | exact Hq].
  - destruct (poll_at_end_of_stream_marker s (context_of plain_codec [])
                (marker 0) [] eq_refl eq_refl eq_refl) as (_ & _ & H).
    destruct (H eq_refl) as (-> & Hq & Hc). split; [reflexivity|]. split; [exact Hq | exact Hc].
Defined.

(** Stream 0 after a packet of stream 1 and a packet of its own: the
    foreign packet of stream 1 is refused again, the queue is clean. *)
Lemma push_keeps_foreign_packets_out_witness :
  constructed plain_decoder ∧
  (let s := run [call_push (Some (packet 1 Byte.x61 7));
                 call_push (Some (packet 0 Byte.x62 3))] plain_decoder in
   push (Some (packet 1 Byte.x63 8)) s = s ∧ queue_ok s).
Proof.
  split; [constructor|]. intros s.
  destruct (push_keeps_foreign_packets_out plain_decoder
              [call_push (Some (packet 1 Byte.x61 7));
               call_push (Some (packet 0 Byte.x62 3))]
              (constructed_open 0 (context_of plain_codec []) 0 true))
    as (_ & _ & Hdrop & Hok & _).
  split; [|exact Hok]. apply Hdrop. unfold own_or_marker. vm_compute.
  intros [H|H]; discriminate H.
Defined.

End DecoderProps.

Module ConverterProps.
Import Core Converter.

Section Converter.
Context `{libav : Libav}.

(** C5. For every native pixel format, width and height, the descriptor
    carries the canonical format of the native one, and has one plane
    when that is bgra, argb, rgba or abgr, three when it is ycbcr, four
    when it is ycbcra, and no plane and the tag invalid for every other
    native format. *)
Theorem get_pixel_format_desc_plane_count (native : PixelFormat) (width height : Z) :
  let desc := get_pixel_format_desc native width height in
  pix_fmt desc = get_pixel_format native ∧
  match get_pixel_format native with
  | pixel_format.bgra | pixel_format.argb | pixel_format.rgba | pixel_format.abgr =>
      length (planes desc) = 1%nat
  | pixel_format.ycbcr => length (planes desc) = 3%nat
  | pixel_format.ycbcra => length (planes desc) = 4%nat
  | pixel_format.invalid =>
      planes desc = [] ∧ pix_fmt desc = pixel_format.invalid ∧
      ∃ number, native = PIX_FMT_other number
  end.
Proof.
  unfold get_pixel_format_desc. destruct native; simpl; eauto.
Qed.

(** C6. The constructor compares the stream's frame interval,
    [time_base.num / time_base.den], with the output format's, [1 / fps],
    in binary64: when the absolute difference is greater than 0.0001 the
    constructor throws [file_read_error] carrying the stream's frame
    interval and builds no decoder; otherwise it does not throw
    [file_read_error]. *)
Theorem constructor_checks_frame_interval (codec_context : AVCodecContext)
    (factory : frame_factory) :
  let difference :=
    PrimFloat.abs (frame_time codec_context - format_frame_time factory)%float in
  ((frame_time_tolerance <? difference)%float = true →
     implementation_new codec_context factory
       = (inl (file_read_error "Invalid video framerate." (frame_time codec_context)), [])) ∧
  ((frame_time_tolerance <? difference)%float = false →
     ∀ msg value, (implementation_new codec_context factory).1
                    ≠ inl (file_read_error msg value)).
Proof.
  intros difference. subst difference. unfold implementation_new, framerate_mismatch.
  split; intros ->; [done|].
  intros msg value. case_bool_decide; [|done].
  by destruct (sws_getContext _ _ _ _ _ _).
Qed.

Lemma copy_planes_transform desc decoded write :
  get_image_transform (copy_planes desc decoded write) = get_image_transform write.
Proof.
  unfold copy_planes.
  generalize (seq 0 (Z.to_nat (to_int (Z.of_nat (length (planes desc)))))).
  intros ns. revert write. induction ns as [|n ns IH]; intros write; [done|].
  simpl. rewrite IH. by destruct (planes desc !! n).
Qed.

(** C8. A frame that [execute] returns carries the transform of the
    frame the factory created, except that its translation is set to
    [(0, 1 / height_)] exactly when the codec is DV video and the output
    mode is upper-field-first. *)
Theorem execute_field_correction (s : implementation) (video_packet : list Byte.byte)
    (write : write_frame) (s' : implementation) :
  execute video_packet s = (inr write, s') →
  let created := create_frame (frame_factory_ s) (desc_ s) in
  (codec_id (codec_context_ s) = CODEC_ID_DVVIDEO ∧
   mode (get_video_format_desc (frame_factory_ s)) = upper →
     get_image_transform write
       = set_image_translation 0 (1 / double_of_int (height_ s))
           (get_image_transform created)) ∧
  (¬ (codec_id (codec_context_ s) = CODEC_ID_DVVIDEO ∧
      mode (get_video_format_desc (frame_factory_ s)) = upper) →
     get_image_transform write = get_image_transform created).
Proof.
  unfold execute. run_M.
  destruct (avcodec_decode_video _ _) as [[[result finished] decoded] st]. run_M.
  case_bool_decide; run_M; [done|]. intros [= <- <-].
  set (created := create_frame (frame_factory_ s) (desc_ s)).
  assert (Hcopy : get_image_transform
            match sws_context_ s with
            | Some sws => scale_into sws (set_codec_context (set_codec st (codec_context_ s)) s)
                            decoded created
            | None => copy_planes (desc_ s) decoded created
            end = get_image_transform created).
  { destruct (sws_context_ s); [done|]. apply copy_planes_transform. }
  unfold needs_field_correction. simpl.
  split.
  - intros [Hid Hmode]. rewrite !bool_decide_eq_true_2 by done. simpl.
    by rewrite Hcopy.
  - intros Hnot. destruct (bool_decide _ && bool_decide _) eqn:E; [|by rewrite Hcopy].
    apply andb_true_iff in E as [?%bool_decide_eq_true ?%bool_decide_eq_true]. tauto.
Qed.

End Converter.

Import Samples.

(** PAL DV on an upper-field-first 25 Hz output, and MPEG-like 4:2:0 on a
    progressive one. *)
Lemma execute_field_correction_witness :
  (let s := {| frame_factory_ := sample_factory upper 25; sws_context_ := None;
               codec_context_ := sample_context CODEC_ID_DVVIDEO PIX_FMT_YUV420P 1 25;
               width_ := 2; height_ := 2; pix_fmt_ := PIX_FMT_YUV420P;
               desc_ := @get_pixel_format_desc sample_libav PIX_FMT_YUV420P 2 2 |} in
   image_translation (get_image_transform (default (create_frame (frame_factory_ s) (desc_ s))
     (match (@execute sample_libav [Byte.x01] s).1 with inr w => Some w | inl _ => None end)))
     = (0, 0.5)%float) ∧
  (let s := {| frame_factory_ := sample_factory progressive 25; sws_context_ := None;
               codec_context_ := sample_context CODEC_ID_DVVIDEO PIX_FMT_YUV420P 1 25;
               width_ := 2; height_ := 2; pix_fmt_ := PIX_FMT_YUV420P;
               desc_ := @get_pixel_format_desc sample_libav PIX_FMT_YUV420P 2 2 |} in
   image_translation (get_image_transform (default (create_frame (frame_factory_ s) (desc_ s))
     (match (@execute sample_libav [Byte.x01] s).1 with inr w => Some w | inl _ => None end)))
     = (0, 0)%float).
Proof.
  split; intros s.
  - destruct (@execute sample_libav [Byte.x01] s) as [r s'] eqn:E.
    destruct r as [e|w]; [vm_compute in E; discriminate E|].
    destruct (execute_field_correction s _ _ _ E) as [H _]. simpl.
    rewrite H; [reflexivity | split; reflexivity].
  - destruct (@execute sample_libav [Byte.x01] s) as [r s'] eqn:E.
    destruct r as [e|w]; [vm_compute in E; discriminate E|].
    destruct (execute_field_correction s _ _ _ E) as [_ H]. simpl.
    rewrite H; [reflexivity | intros [_ Hm]; discriminate Hm].
Defined.

(** A 25 Hz stream into a 25 Hz and into a 50 Hz output. *)
Lemma constructor_checks_frame_interval_witness :
  (@implementation_new sample_libav (sample_context CODEC_ID_DVVIDEO PIX_FMT_YUV420P 1 25)
     (sample_factory upper 50)).1
    = inl (file_read_error "Invalid video framerate." (1 / 25)%float) ∧
  (∀ msg value,
     (@implementation_new sample_libav (sample_context CODEC_ID_DVVIDEO PIX_FMT_YUV420P 1 25)
        (sample_factory upper 25)).1 ≠ inl (file_read_error msg value)).
Proof.
  split.
  - destruct (@constructor_checks_frame_interval sample_libav
                (sample_context CODEC_ID_DVVIDEO PIX_FMT_YUV420P 1 25)
                (sample_factory upper 50)) as [H _].
    rewrite H; reflexivity.
  - destruct (@constructor_checks_frame_interval sample_libav
                (sample_context CODEC_ID_DVVIDEO PIX_FMT_YUV420P 1 25)
                (sample_factory upper 25)) as [_ H].
    apply H. reflexivity.
Defined.

End ConverterProps.

Module MixerProps.
Import Core Mixer.

Section Mixer.
Context `{collaborators : Collaborators}.

Ltac calls_done :=
  split; [done|]; eexists; split;
    [simpl; rewrite <- ?(assoc_L (++)); simpl; reflexivity|];
  split; [by eexists | by intros ?].

Lemma mix_layer_rule frame s r s' :
  mix_layer frame s = (r, s') →
  same_frame s s' ∧ log_ s' = log_ s ∧
  made_calls s r s' (layer_calls (blend_modes_ s) frame).
Proof.
  unfold mix_layer, on_image, on_audio, made_calls, layer_calls. run_M.
  destruct (begin_layer _ _) as [[e|[]] i1]; simpl.
  { intros [= <- <-]. split; [done|]. calls_done. }
  destruct (accept_audio _ _) as [[e|[]] a1]; simpl.
  { intros [= <- <-]. split; [done|]. calls_done. }
  destruct (accept_image _ _) as [[e|[]] i2]; simpl.
  { intros [= <- <-]. split; [done|]. calls_done. }
  destruct (end_layer _) as [[e|[]] i3]; simpl.
  { intros [= <- <-]. split; [done|]. calls_done. }
  intros [= <- <-]. split; [done|]. calls_done.
Qed.

Lemma mix_layers_rule frames s r s' :
  mix_layers frames s = (r, s') →
  same_frame s s' ∧ log_ s' = log_ s ∧
  made_calls s r s' (concat (layer_calls (blend_modes_ s) <$> frames)).
Proof.
  revert s r s'. induction frames as [|frame frames IH]; intros s r s'.
  { intros [= <- <-]. split; [done|]. split; [done|].
    exists []. by rewrite (right_id_L [] (++)). }
  rewrite fmap_cons, concat_cons. cbn [mix_layers].
  unfold mbind, M_bind. destruct (mix_layer frame s) as [[e|[]] s1] eqn:E1.
  - intros [= <- <-].
    destruct (mix_layer_rule _ _ _ _ E1) as (Hf & Hl & made & Hc & Hp & _).
    split; [done|]. split; [done|]. exists made. split; [done|].
    split; [by apply prefix_app_r | by intros ?].
  - intros E2.
    destruct (mix_layer_rule _ _ _ _ E1) as ((? & Hb & ?) & Hl1 & made1 & Hc1 & _ & Hall1).
    destruct (IH _ _ _ E2) as ((? & ? & ?) & Hl2 & made2 & Hc2 & Hp2 & Hall2).
    rewrite Hb in Hp2, Hall2.
    split; [unfold same_frame; split_and!; congruence|]. split; [congruence|].
    exists (made1 ++ made2). rewrite Hc2, Hc1, (assoc_L (++)). split; [done|].
    rewrite (Hall1 tt eq_refl).
    split; [by apply prefix_app|]. intros a Hr. by rewrite (Hall2 a Hr).
Qed.

Lemma compose_rule frames format_desc s r s' :
  compose frames format_desc s = (r, s') →
  same_frame s s' ∧ log_ s' = log_ s ∧
  made_calls s r s' (tick_calls (blend_modes_ s) frames format_desc) ∧
  (∀ f, r = inr f → ∃ image audio,
     f = data_frame_mixed (mixed_frame_new (this_ s) image audio format_desc)).
Proof.
  unfold compose, tick_calls. run_M.
  destruct (mix_layers frames s) as [[e|[]] s1] eqn:E1;
    destruct (mix_layers_rule _ _ _ _ E1) as ((Ht & Hb & Hx) & Hl & made & Hc & Hp & Hall).
  { intros [= <- <-]. split; [done|]. split; [done|]. split; [|done].
    exists made. split; [done|]. split; [by apply prefix_app_r | done]. }
  specialize (Hall tt eq_refl). subst made.
  unfold on_image, on_audio, made_calls.
  destruct (image_call _ _) as [[e|image] i1]; simpl.
  { intros [= <- <-]. split; [done|]. split; [done|]. split; [|done].
    eexists. split; [simpl; rewrite Hc, <- (assoc_L (++)); reflexivity|].
    split; [|done]. apply prefix_app, prefix_cons, prefix_nil. }
  destruct (audio_call _ _) as [[e|audio] a1]; simpl.
  { intros [= <- <-]. split; [done|]. split; [done|]. split; [|done].
    eexists. split; [simpl; rewrite Hc, <- !(assoc_L (++)); reflexivity|].
    split; [|done]. by apply prefix_app. }
  intros [= <- <-]. split; [done|]. split; [done|]. split.
  - eexists. split; [simpl; rewrite Hc, <- !(assoc_L (++)); reflexivity|].
    split; [by apply prefix_app | done].
  - intros f [= <-]. exists image, audio. by rewrite Ht.
Qed.

(** The task of [operator()] returns a frame whatever happens inside. *)
Lemma tick_rule frames format_desc s :
  ∃ f s', tick frames format_desc s = (inr f, s') ∧
    same_frame s s' ∧
    made_calls s (compose frames format_desc s).1 s'
      (tick_calls (blend_modes_ s) frames format_desc) ∧
    match compose frames format_desc s with
    | (inl e, s1) => f = data_frame_empty ∧ s' = log_exception e s1
    | (inr mixed, s1) => f = mixed ∧ s' = s1
    end.
Proof.
  unfold tick. run_M.
  destruct (compose frames format_desc s) as [[e|mixed] s1] eqn:E;
    destruct (compose_rule _ _ _ _ _ E) as (Hf & Hl & Hm & _);
    eexists _, _; (split; [reflexivity|]); by split.
Qed.

(** The worker and the queue. *)
Lemma run_blend_task_insert t s :
  run_blend_task t s
    = set_blend_modes (<[task_index t := task_value t]> (blend_modes_ s)) s.
Proof.
  unfold run_blend_task. destruct (blend_modes_ s !! task_index t) eqn:E; [|done].
  f_equal. apply map_eq. intros i. rewrite lookup_alter, lookup_insert.
  case_decide; [subst; by rewrite E | done].
Qed.

Lemma worker_run_rule steps s :
  let s' := worker_run steps s in
  blend_modes_ s' = apply_blend_tasks (take steps (executor_ s)) (blend_modes_ s) ∧
  executor_ s' = drop steps (executor_ s) ∧
  this_ s' = this_ s ∧ audio_mixer_ s' = audio_mixer_ s ∧
  image_mixer_ s' = image_mixer_ s ∧ calls_ s' = calls_ s ∧ log_ s' = log_ s.
Proof.
  cbv zeta. revert s. induction steps as [|steps IH]; intros s; [done|].
  assert (Hcomm : worker_run (S steps) s = worker_run steps (worker_step s)).
  { unfold worker_run. by rewrite Nat.iter_succ_r. }
  rewrite Hcomm. destruct (IH (worker_step s)) as (-> & -> & -> & -> & -> & -> & ->).
  unfold worker_step. destruct (executor_ s) as [|t queue] eqn:E.
  - rewrite E. by rewrite take_nil, drop_nil.
  - by rewrite run_blend_task_insert.
Qed.

Lemma worker_drained steps s :
  let s' := worker_run (length (executor_ (worker_run steps s))) (worker_run steps s) in
  blend_modes_ s' = apply_blend_tasks (executor_ s) (blend_modes_ s) ∧
  executor_ s' = [] ∧ this_ s' = this_ s ∧ calls_ s' = calls_ s ∧ log_ s' = log_ s.
Proof.
  cbv zeta.
  destruct (worker_run_rule (length (executor_ (worker_run steps s))) (worker_run steps s))
    as (-> & -> & -> & _ & _ & -> & ->).
  destruct (worker_run_rule steps s) as (-> & -> & -> & _ & _ & -> & ->).
  rewrite firstn_all, drop_all. split; [|done].
  unfold apply_blend_tasks. rewrite <- foldl_app. by rewrite take_drop.
Qed.


(** [operator()] as a whole: the worker finishes the queue, then runs the
    tick on what the queue made of the table. *)
Lemma operator_call_rule frames format_desc s :
  let s1 := worker_run (length (executor_ s)) s in
  let table := apply_blend_tasks (executor_ s) (blend_modes_ s) in
  ∃ f s', operator_call frames format_desc s = (inr f, s') ∧
    blend_modes_ s' = table ∧ executor_ s' = [] ∧ this_ s' = this_ s ∧
    (∃ made, calls_ s' = calls_ s ++ made ∧
       made `prefix_of` tick_calls table frames format_desc ∧
       (f ≠ data_frame_empty → made = tick_calls table frames format_desc)) ∧
    match compose frames format_desc s1 with
    | (inl e, s2) => f = data_frame_empty ∧ s' = log_exception e s2
    | (inr mixed, s2) => f = mixed ∧ s' = s2
    end.
Proof.
  cbv zeta. unfold operator_call, executor_invoke.
  destruct (worker_drained 0 s) as (Hb & Hx & Ht & Hc & _). simpl in Hb, Hx, Ht, Hc.
  destruct (tick_rule frames format_desc (worker_run (length (executor_ s)) s))
    as (f & s' & Htick & (Ht' & Hb' & Hx') & (made & Hc' & Hp & Hall) & Hres).
  exists f, s'. rewrite Hb in Hp, Hall.
  split; [done|]. split; [congruence|]. split; [congruence|]. split; [congruence|].
  split; [|done]. exists made. split; [congruence|]. split; [done|].
  intros Hf. destruct (compose _ _ _) as [[e|mixed] s2]; [by destruct Hres|].
  by eapply Hall.
Qed.

(** C3. [operator()] returns a frame for every layer map and format
    descriptor: the frame composed when composition returns, and the
    empty frame, with the exception logged, when visiting a layer,
    finishing the image or the audio, or building the frame throws. *)
Theorem operator_call_never_throws (s : impl) (frames : list (Z * draw_frame))
    (format_desc : video_format_desc) :
  let s1 := worker_run (length (executor_ s)) s in
  ∃ f s', operator_call frames format_desc s = (inr f, s') ∧
    match compose frames format_desc s1 with
    | (inl e, s2) => f = data_frame_empty ∧ s' = log_exception e s2
    | (inr mixed, s2) => f = mixed ∧ s' = s2
    end.
Proof.
  destruct (operator_call_rule frames format_desc s) as (f & s' & H & _ & _ & _ & _ & Hres).
  by exists f, s'.
Qed.

(** C7. A tick makes its calls by the blend-mode table as the queued
    [set_blend_mode] tasks leave it: each layer begins with the mode the
    table has for its index, and with [normal] when the table has none.
    After [set_blend_mode i X], however far the worker has got when the
    tick is submitted, that table has [X] at [i], so a layer of index [i]
    begins with [X]. *)
Theorem set_blend_mode_is_seen_by_the_next_tick (s : impl) (steps : nat)
    (i : Z) (X : blend_mode) (frames : list (Z * draw_frame))
    (format_desc : video_format_desc) :
  let s1 := worker_run steps (set_blend_mode i X s) in
  let f := (operator_call frames format_desc s1).1 in
  let s2 := (operator_call frames format_desc s1).2 in
  let table := blend_modes_ s2 in
  table = <[i := X]> (apply_blend_tasks (executor_ s) (blend_modes_ s)) ∧
  table !! i = Some X ∧
  (∀ frame, layer_calls table (i, frame)
            = [call_begin_layer X; call_accept_audio frame;
               call_accept_image frame; call_end_layer]) ∧
  (∀ index frame, table !! index = None →
     layer_calls table (index, frame)
     = [call_begin_layer normal; call_accept_audio frame;
        call_accept_image frame; call_end_layer]) ∧
  (∃ made, calls_ s2 = calls_ s ++ made ∧
     made `prefix_of` tick_calls table frames format_desc ∧
     (f ≠ inr data_frame_empty → made = tick_calls table frames format_desc)).
Proof.
  cbv zeta.
  destruct (operator_call_rule frames format_desc (worker_run steps (set_blend_mode i X s)))
    as (f & s2 & -> & Hb & _ & _ & (made & Hc & Hp & Hall) & _).
  cbn [fst snd].
  destruct (worker_run_rule steps (set_blend_mode i X s))
    as (Hb0 & Hx0 & _ & _ & _ & Hc0 & _).
  assert (Htable : blend_modes_ s2
            = <[i := X]> (apply_blend_tasks (executor_ s) (blend_modes_ s))).
  { rewrite Hb, Hb0, Hx0. unfold apply_blend_tasks.
    rewrite <- foldl_app, take_drop.
    unfold set_blend_mode, executor_begin_invoke. simpl. by rewrite foldl_app. }
  assert (Hlook : blend_modes_ s2 !! i = Some X) by by rewrite Htable, lookup_insert_eq.
  split; [done|]. split; [done|].
  split; [intros frame; unfold layer_calls; simpl; by rewrite Hlook|].
  split; [intros index frame Hnone; unfold layer_calls; simpl; by rewrite Hnone|].
  exists made. rewrite Hb. rewrite Hc, Hc0. split; [done|]. split; [done|].
  intros Hf. apply Hall. congruence.
Qed.

(** C9. On every frame the constructor builds, the non-const
    [image_data], at every index, and the non-const [audio_data] throw
    [invalid_operation] and leave the frame as it was. *)
Theorem mixed_frame_mutators_throw (tag : Z) (image : image_future) (audio : audio_buffer)
    (format_desc : video_format_desc) (index : Z) :
  let f := mixed_frame_new tag image audio format_desc in
  image_data index f = (inl (invalid_operation ""), f) ∧
  audio_data f = (inl (invalid_operation ""), f) ∧
  image_data_const index f = image ∧ audio_data_const f = audio ∧
  Mixer.tag f = tag ∧ video_desc_ f = format_desc.
Proof. done. Qed.

(** C10. The tick itself, whether it composes a frame or throws inside
    and returns the empty one, leaves the blend-mode table as it found
    it; across [operator()] the table changes by the [set_blend_mode]
    tasks still queued and by nothing else, so not at all when none is
    queued. *)
Theorem operator_call_keeps_blend_modes (s : impl) (frames : list (Z * draw_frame))
    (format_desc : video_format_desc) :
  blend_modes_ (tick frames format_desc s).2 = blend_modes_ s ∧
  blend_modes_ (operator_call frames format_desc s).2
    = apply_blend_tasks (executor_ s) (blend_modes_ s) ∧
  (executor_ s = [] →
     blend_modes_ (operator_call frames format_desc s).2 = blend_modes_ s) ∧
  (∀ index value,
     blend_modes_ (worker_step (set_blend_mode index value s))
       = match executor_ s with
         | [] => <[index := value]> (blend_modes_ s)
         | t :: _ => <[task_index t := task_value t]> (blend_modes_ s)
         end).
Proof.
  destruct (tick_rule frames format_desc s) as (f & s' & -> & (_ & Hb & _) & _).
  destruct (operator_call_rule frames format_desc s) as (f' & s'' & -> & Hb' & _).
  cbn [snd]. split; [done|]. split; [done|]. split.
  - intros Hq. by rewrite Hb', Hq.
  - intros index value. unfold worker_step, set_blend_mode, executor_begin_invoke. simpl.
    destruct (executor_ s); simpl; by rewrite run_blend_task_insert.
Qed.

End Mixer.

Import Samples.

(** Layer 3 set to another mode, the worker idle, then a tick over
    layers 1 and 3. *)
Lemma set_blend_mode_is_seen_by_the_next_tick_witness :
  let s1 := @set_blend_mode sample_collaborators 3 (blend_mode_other 7) sample_mixer in
  calls_ (@operator_call sample_collaborators [layer 1 10; layer 3 30] pal s1).2
  = [call_begin_layer normal; call_accept_audio (content 10);
     call_accept_image (content 10); call_end_layer;
     call_begin_layer (blend_mode_other 7); call_accept_audio (content 30);
     call_accept_image (content 30); call_end_layer; call_image pal; call_audio pal].
Proof.
  intros s1.
  destruct (@set_blend_mode_is_seen_by_the_next_tick sample_collaborators sample_mixer 0
              3 (blend_mode_other 7) [layer 1 10; layer 3 30] pal)
    as (_ & _ & Hlayer & Hdefault & made & Hc & _ & Hall).
  change (worker_run 0 (set_blend_mode 3 (blend_mode_other 7) sample_mixer)) with s1
    in Hc, Hall, Hlayer, Hdefault.
  rewrite Hc, Hall by (vm_compute; discriminate).
  unfold tick_calls. rewrite !fmap_cons, !concat_cons, Hlayer, Hdefault by reflexivity.
  reflexivity.
Defined.

(** A mixer with nothing queued, on a tick that throws at its second
    layer. *)
Lemma operator_call_keeps_blend_modes_witness :
  (@operator_call sample_collaborators [layer 1 10; layer 2 (-1)] pal sample_mixer).1
  = inr data_frame_empty ∧
  blend_modes_ (@operator_call sample_collaborators [layer 1 10; layer 2 (-1)] pal sample_mixer).2
  = blend_modes_ sample_mixer.
Proof.
  split; [reflexivity|].
  destruct (@operator_call_keeps_blend_modes sample_collaborators sample_mixer
              [layer 1 10; layer 2 (-1)] pal) as (_ & _ & H & _).
  apply H. reflexivity.
Defined.

End MixerProps.

Module DecoderMore.
Import VideoDecoder VideoDecoderMore.

Section Decoder.
Context `{backend : CodecBackend}.

Lemma set_packets_same (s : impl) : set_packets (packets_ s) s = s.
Proof. by destruct s. Qed.

Lemma push_all_rule (s : impl) (ps : list (option AVPacket)) :
  run (call_push <$> ps) s
  = set_packets (packets_ s ++ filter (own_or_marker s) (omap id ps)) s.
Proof.
  induction ps as [|p ps IH] using rev_ind.
  { simpl. by rewrite app_nil_r, set_packets_same. }
  rewrite fmap_app, fmap_cons, fmap_nil, DecoderProps.run_snoc, IH.
  rewrite omap_app, filter_app. cbn [step].
  destruct p as [p|]; simpl; [|by rewrite app_nil_r].
  unfold push. cbn [index_ set_packets packets_].
  rewrite filter_cons, filter_nil.
  destruct (decide (own_or_marker s p)) as [Hacc|Hacc]; unfold own_or_marker in Hacc.
  - assert (bool_decide (stream_index p = index_ s) || bool_decide (data p = None) = true)
      as ->.
    { apply orb_true_iff. rewrite !bool_decide_eq_true. exact Hacc. }
    unfold set_packets. simpl. by rewrite (assoc_L (++)).
  - assert (bool_decide (stream_index p = index_ s) || bool_decide (data p = None) = false)
      as ->.
    { apply orb_false_iff. rewrite !bool_decide_eq_false. tauto. }
    by rewrite app_nil_r.
Qed.

(** [push] of a run of packet pointers enqueues, in their order, the
    non-null ones that are of the decoder's stream or carry no payload;
    nothing but the queue changes, nothing queued before is lost or
    moved, and the queue grows by at most the number of pointers. *)
Theorem push_all_filters (s : impl) (ps : list (option AVPacket)) :
  let s' := run (call_push <$> ps) s in
  packets_ s' = packets_ s ++ filter (own_or_marker s) (omap id ps) ∧
  s' = set_packets (packets_ s') s ∧
  (length (packets_ s') ≤ length (packets_ s) + length ps)%nat.
Proof.
  cbv zeta. rewrite push_all_rule. simpl. split; [done|]. split; [done|].
  rewrite length_app. apply Nat.add_le_mono_l.
  etrans; [apply length_filter|]. clear s.
  induction ps as [|[p|] ps IH]; [done| |]; cbn [omap list_omap id length]; simpl; lia.
Qed.


(** Without a codec context [poll] decodes nothing. *)
Lemma poll_raw (s : impl) :
  codec_context_ s = None →
  poll s = match packets_ s with
           | [] => (inr None, s)
           | p :: rest =>
               (inr (Some (if bool_decide (data p = None) then flush_video else empty_video)),
                set_packets rest s)
           end.
Proof.
  intros Hctx. unfold poll, pop_packet. run_M.
  destruct (packets_ s) as [|p rest] eqn:Hq; [done|].
  rewrite Hctx. run_M. by rewrite Hq.
Qed.

(** In raw mode, without a codec context, as many calls of [poll] as
    packets are queued return, in queue order, the flush frame for a
    marker and the empty frame for a packet with payload; none throws,
    the queue is empty afterwards and one more [poll] returns null. *)
Theorem polls_raw_in_queue_order (s : impl) :
  codec_context_ s = None →
  polls (length (packets_ s)) s
    = ((λ p, inr (Some (if bool_decide (data p = None) then flush_video else empty_video)))
         <$> packets_ s,
       set_packets [] s) ∧
  poll (set_packets [] s) = (inr None, set_packets [] s).
Proof.
  intros Hctx. split; [|by rewrite poll_raw].
  remember (packets_ s) as q eqn:Hq. revert s Hctx Hq.
  induction q as [|p q IH]; intros s Hctx Hq.
  { simpl. by rewrite Hq, set_packets_same. }
  cbn [length polls]. rewrite poll_raw, <- Hq by done.
  rewrite (IH (set_packets q s)) by done. done.
Qed.

(** What [decode] throws, and when. *)
Lemma decode_throws pkt (s : impl) e s' :
  decode pkt s = (inl e, s') →
  (codec_context_ s = None ∧ e = null_dereference) ∨
  (∃ ctx status, codec_context_ s = Some ctx ∧ status < 0 ∧
     e = ffmpeg_error "[video_decocer]" status ∧
     (avcodec_decode_video2 (codec ctx) (buffers ctx) pkt).1.1.1 = status).
Proof.
  unfold decode, THROW_ON_ERROR2. run_M.
  destruct (codec_context_ s) as [ctx|] eqn:Hctx.
  - destruct (avcodec_decode_video2 _ _ _) as [[[st ff] fr] bufs] eqn:Hdec.
    run_M. repeat (case_bool_decide; run_M); intros [= <- <-]. right.
    exists ctx, st. by rewrite Hdec.
  - intros [= <- <-]. by left.
Qed.

(** [poll] throws nothing but the error of the backend: an exception out
    of [poll] is an [ffmpeg_error] with the negative status the decode
    primitive returned, and there is a codec context. *)
Theorem poll_throws_only_backend_errors (s : impl) e s' :
  poll s = (inl e, s') →
  ∃ ctx bufs p status, codec_context_ s = Some ctx ∧ head (packets_ s) = Some p ∧
    status < 0 ∧ e = ffmpeg_error "[video_decocer]" status ∧
    (avcodec_decode_video2 (codec ctx) bufs p).1.1.1 = status.
Proof.
  unfold poll, pop_packet, flush_buffers. run_M.
  destruct (packets_ s) as [|p rest] eqn:Hq; [done|].
  destruct (codec_context_ s) as [ctx|] eqn:Hctx; run_M; [|done].
  case_bool_decide as Hdata.
  - destruct (has_cap_delay ctx); run_M; [|done].
    destruct (decode p s) as [[e'|[f|]] s1] eqn:Hdec; try done.
    intros [= <- <-]. apply decode_throws in Hdec as [[? _]|Hdec]; [congruence|].
    destruct Hdec as (ctx' & status & Hc & ? & ? & ?). exists ctx', (buffers ctx'), p, status.
    split; [congruence|]. done.
  - destruct (decode p _) as [[e'|[f|]] s1] eqn:Hdec; try done.
    intros [= <- <-]. apply decode_throws in Hdec as [[Hn _]|Hdec]; [simpl in Hn; congruence|].
    destruct Hdec as (ctx' & status & Hc & ? & ? & ?). exists ctx', (buffers ctx'), p, status.
    simpl in Hc. split; [congruence|]. done.
Qed.

(** A failed decode and the queue: a packet with payload is popped
    before it is decoded, so it is gone when the decode throws; the
    marker is popped after the drain, so it is still at the front, and
    the codec's buffers are not flushed, when the drain throws. *)
Theorem poll_failed_decode_and_queue (s : impl) ctx p rest e s1 :
  codec_context_ s = Some ctx →
  packets_ s = p :: rest →
  (is_Some (data p) →
     decode p (set_packets rest s) = (inl e, s1) →
     poll s = (inl e, s1) ∧ packets_ s1 = rest) ∧
  (data p = None → has_cap_delay ctx = true →
     decode p s = (inl e, s1) →
     poll s = (inl e, s1) ∧ packets_ s1 = p :: rest).
Proof.
  intros Hctx Hq. unfold poll, pop_packet. run_M. rewrite Hq, Hctx. run_M. split.
  - intros [bytes Hb] Hdec. rewrite bool_decide_eq_false_2 by congruence.
    rewrite Hq. simpl. rewrite Hdec.
    by destruct (DecoderProps.decode_frame_rule _ _ _ _ Hdec) as (_ & -> & _).
  - intros Hb -> Hdec. rewrite bool_decide_eq_true_2 by done. rewrite Hdec.
    destruct (DecoderProps.decode_frame_rule _ _ _ _ Hdec) as (_ & -> & _).
    by rewrite Hq.
Qed.

Lemma to_uint32_range z : 0 ≤ to_uint32 z < 2 ^ 32.
Proof. unfold to_uint32. apply Z.mod_pos_bound. lia. Qed.

(** The counters stay within [uint32_t]: on a decoder built by a
    constructor, after any sequence of calls, [file_frame_number_], the
    nominal count and [nb_frames()] are at least 0 and below 2^32. *)
Theorem counters_within_uint32 (s0 : impl) (cs : list call) :
  constructed s0 →
  let s := run cs s0 in
  0 ≤ file_frame_number_ s < 2 ^ 32 ∧
  0 ≤ nb_frames_ s < 2 ^ 32 ∧
  0 ≤ nb_frames s < 2 ^ 32.
Proof.
  intros Hc. cbv zeta.
  assert (Hn : 0 ≤ nb_frames_ (run cs s0) < 2 ^ 32).
  { destruct (DecoderProps.run_frame_rule cs s0) as [_ ->].
    destruct Hc; simpl; [lia | apply to_uint32_range]. }
  assert (Hf : 0 ≤ file_frame_number_ (run cs s0) < 2 ^ 32).
  { clear Hn. induction cs as [|c cs IH] using rev_ind.
    - destruct Hc; simpl; lia.
    - rewrite DecoderProps.run_snoc. destruct c as [p| |]; cbn [step].
      + by destruct (DecoderProps.push_frame_rule p (run cs s0)) as (_ & _ & ->).
      + destruct (poll (run cs s0)) as [r s'] eqn:Hp. cbn [snd].
        destruct (DecoderProps.poll_frame_rule _ _ _ Hp) as (_ & _ & _ & Hr).
        destruct r as [e|[[| |f]|]]; try by rewrite Hr.
        destruct Hr as (p & rest & _ & _ & -> & _). apply to_uint32_range.
      + done. }
  split; [done|]. split; [done|]. unfold nb_frames. lia.
Qed.

Lemma raw_run_context (cs : list call) : codec_context_ (run cs impl_default) = None.
Proof.
  induction cs as [|c cs IH] using rev_ind; [done|].
  rewrite DecoderProps.run_snoc. destruct c as [[p|]| |]; cbn [step]; try done.
  - unfold push. by destruct (_ || _).
  - rewrite poll_raw by done. by destruct (packets_ _).
Qed.

(** A decoder built without a codec context stays in raw mode whatever
    is called on it: it keeps no context, [poll] neither throws nor hands
    out a decoded picture, [nb_frames()] stays 0, and [print] would
    dereference the null context. *)
Theorem raw_decoder_stays_raw (cs : list call) :
  let s := run cs impl_default in
  codec_context_ s = None ∧
  nb_frames s = 0 ∧
  ((poll s).1 = inr None ∨ (poll s).1 = inr (Some flush_video) ∨
   (poll s).1 = inr (Some empty_video)) ∧
  print s = inl null_dereference.
Proof.
  cbv zeta. pose proof (raw_run_context cs) as Hctx.
  assert (Hff : file_frame_number_ (run cs impl_default) = 0).
  { induction cs as [|c cs IH] using rev_ind; [done|].
    pose proof (raw_run_context cs) as Hc.
    rewrite DecoderProps.run_snoc. destruct c as [p| |]; cbn [step].
    + destruct (DecoderProps.push_frame_rule p (run cs impl_default)) as (_ & _ & ->).
      by apply IH.
    + rewrite poll_raw by done. destruct (packets_ _); simpl; by apply IH.
    + simpl. by apply IH. }
  split; [done|]. split.
  { unfold nb_frames. rewrite Hff.
    destruct (DecoderProps.run_frame_rule cs impl_default) as [_ ->]. done. }
  split; [|unfold print; by rewrite Hctx].
  rewrite poll_raw by done. destruct (packets_ _) as [|p rest]; [by left|].
  simpl. case_bool_decide; auto.
Qed.

(** What [decode] reports for a picture, and that it reports nothing
    otherwise. *)
Lemma decode_reports pkt (s : impl) r s' :
  decode pkt s = (r, s') →
  width_ s' = width_ s ∧ height_ s' = height_ s ∧
  match r with
  | inr (Some f) =>
      ∃ ctx, codec_context_ s = Some ctx ∧
        event_subject_ s' = event_subject_ s ++ picture_events s ctx f ∧
        is_progressive_ s' = bool_decide (interlaced_frame f = 0) ∧
        log_ s' = log_ s ++
          (if bool_decide (repeat_pict f > 0)
           then ["[video_decoder] Field repeat_pict not implemented."%string] else [])
  | _ =>
      event_subject_ s' = event_subject_ s ∧ is_progressive_ s' = is_progressive_ s ∧
      log_ s' = log_ s
  end.
Proof.
  unfold decode, THROW_ON_ERROR2. run_M.
  destruct (codec_context_ s) as [ctx|] eqn:Hctx.
  - destruct (avcodec_decode_video2 _ _ _) as [[[st ff] fr] bufs].
    run_M. repeat (case_bool_decide; run_M); intros [= <- <-]; simpl; try done.
    all: split; [done|]; split; [done|]; exists ctx; unfold picture_events; simpl.
    all: repeat case_bool_decide; rewrite ?app_nil_r; done.
  - by intros [= <- <-].
Qed.

(** Metrics once per picture: a [poll] that hands out a decoded picture
    sends exactly the four events width, height, field and codec, sets
    [is_progressive_] from the picture's interlace flag, and logs the
    repeat-field warning when the picture asks for a repeat; any other
    [poll], one that throws too, sends no event, keeps the flag and logs
    nothing. *)
Theorem poll_reports_each_picture_once (s : impl) r s' :
  poll s = (r, s') →
  match r with
  | inr (Some (decoded f)) =>
      ∃ ctx, codec_context_ s = Some ctx ∧
        event_subject_ s' = event_subject_ s ++ picture_events s ctx f ∧
        is_progressive_ s' = bool_decide (interlaced_frame f = 0) ∧
        log_ s' = log_ s ++
          (if bool_decide (repeat_pict f > 0)
           then ["[video_decoder] Field repeat_pict not implemented."%string] else [])
  | _ =>
      event_subject_ s' = event_subject_ s ∧ is_progressive_ s' = is_progressive_ s ∧
      log_ s' = log_ s
  end.
Proof.
  unfold poll, pop_packet, flush_buffers. run_M.
  destruct (packets_ s) as [|p rest] eqn:Hq.
  { by intros [= <- <-]. }
  destruct (codec_context_ s) as [ctx|] eqn:Hctx; run_M.
  2: { intros [= <- <-]. by case_bool_decide. }
  case_bool_decide as Hdata.
  - destruct (has_cap_delay ctx); run_M; [|by intros [= <- <-]].
    destruct (decode p s) as [[e|[f|]] s1] eqn:Hdec;
      destruct (decode_reports _ _ _ _ Hdec) as (Hw & Hh & Hr);
      intros [= <- <-]; simpl; try done.
    destruct Hr as (ctx' & Hc & ?). exists ctx'. split; [congruence|done].
  - destruct (decode p _) as [[e|[f|]] s1] eqn:Hdec;
      destruct (decode_reports _ _ _ _ Hdec) as (Hw & Hh & Hr);
      intros [= <- <-]; simpl in *; try done.
    destruct Hr as (ctx' & Hc & ?). exists ctx'. split; [congruence|done].
Qed.

(** [clear] forgets what was queued and nothing else: after any state,
    [clear] and a run of pushes, the queue holds just the accepted ones
    of those pushes, in order; the codec context, with whatever the codec
    holds back, and [nb_frames()] are as before the [clear]. *)
Theorem clear_then_push_all (s : impl) (ps : list (option AVPacket)) :
  let s' := run (call_clear :: (call_push <$> ps)) s in
  packets_ s' = filter (own_or_marker s) (omap id ps) ∧
  ready s' = negb (bool_decide (filter (own_or_marker s) (omap id ps) = [])) ∧
  codec_context_ s' = codec_context_ s ∧
  nb_frames s' = nb_frames s.
Proof.
  cbv zeta. change (run (call_clear :: (call_push <$> ps)) s)
    with (run (call_push <$> ps) (clear s)).
  rewrite push_all_rule. unfold ready. by simpl.
Qed.

(** A picture drained at the end-of-stream marker is stamped from the
    marker: its presentation number and [file_frame_number_] are the
    marker's timestamp mod 2^32, not that of the packet the picture came
    from, and [nb_frames()] follows. *)
Theorem drained_picture_is_stamped_from_marker (s : impl) marker rest f s' :
  packets_ s = marker :: rest →
  data marker = None →
  poll s = (inr (Some (decoded f)), s') →
  frame_pts f = to_uint32 (pts marker) ∧
  file_frame_number_ s' = to_uint32 (pts marker) ∧
  nb_frames s' = Z.max (nb_frames_ s) (to_uint32 (pts marker)) ∧
  packets_ s' = marker :: rest.
Proof.
  intros Hq Hdata Hp.
  destruct (DecoderProps.poll_frame_rule _ _ _ Hp) as (_ & Hn & _ & p & rest' & Hq' & Hdec & Hf & Hpts).
  rewrite Hq in Hq'. injection Hq' as <- <-.
  split; [done|]. split; [done|]. split; [unfold nb_frames; by rewrite Hn, Hf|].
  revert Hp. unfold poll, pop_packet, flush_buffers. run_M. rewrite Hq.
  destruct (codec_context_ s) as [ctx|]; run_M; [|by rewrite bool_decide_eq_true_2 by done].
  rewrite bool_decide_eq_true_2 by done.
  destruct (has_cap_delay ctx); run_M; [|done].
  destruct (decode marker s) as [[e|[f'|]] s1] eqn:Hd; run_M; try done.
  intros [= <- <-]. destruct (DecoderProps.decode_frame_rule _ _ _ _ Hd) as (_ & -> & _).
  done.
Qed.

End Decoder.

Import Samples.

(** A delayed-output codec holding the picture of the packet stamped 8:
    drained at a marker of timestamp 0, the count falls from 8 to 0. *)
Lemma drained_picture_is_stamped_from_marker_witness :
  let s := run [call_push (Some (packet 0 Byte.x61 7)); call_push (Some (packet 0 Byte.x62 8));
                call_push (Some (marker 0)); call_poll; call_poll] (delay_decoder []) in
  nb_frames s = 8 ∧ nb_frames (poll s).2 = 0 ∧ packets_ (poll s).2 = [marker 0].
Proof.
  intros s. split; [reflexivity|].
  destruct (poll s) as [r s'] eqn:E.
  destruct r as [e|[[| |f]|]]; try (vm_compute in E; discriminate E).
  destruct (drained_picture_is_stamped_from_marker s (marker 0) [] f s' eq_refl eq_refl E)
    as (_ & _ & Hn & Hq).
  cbn [snd]. split; [rewrite Hn; reflexivity | exact Hq].
Defined.

(** A raw decoder with a packet and a marker queued. *)
Lemma polls_raw_in_queue_order_witness :
  let s := run [call_push (Some (packet 0 Byte.x61 1)); call_push (Some (marker 0))]
               (@impl_default sample_backend) in
  (polls 2 s).1 = [inr (Some empty_video); inr (Some flush_video)] ∧
  packets_ (polls 2 s).2 = [].
Proof.
  intros s.
  destruct (polls_raw_in_queue_order s eq_refl) as [H _].
  change (length (packets_ s)) with 2%nat in H. rewrite H. split; reflexivity.
Defined.

(** The sample codec rejects an empty payload with status -1. *)
Lemma poll_throws_only_backend_errors_witness :
  let s := push (Some (corrupt 0 1)) plain_decoder in
  (poll s).1 = inl (ffmpeg_error "[video_decocer]" (-1)) ∧
  ∃ status, status < 0 ∧
    ffmpeg_error "[video_decocer]" (-1) = ffmpeg_error "[video_decocer]" status.
Proof.
  intros s. split; [reflexivity|].
  destruct (poll_throws_only_backend_errors s (ffmpeg_error "[video_decocer]" (-1))
              (set_packets [] s) eq_refl) as (ctx & bufs & p & status & _ & _ & Hneg & He & _).
  exists status. split; [exact Hneg | exact He].
Defined.

Lemma poll_failed_decode_and_queue_witness :
  let s := push (Some (packet 0 Byte.x61 2)) (push (Some (corrupt 0 1)) plain_decoder) in
  (poll s).1 = inl (ffmpeg_error "[video_decocer]" (-1)) ∧
  packets_ (poll s).2 = [packet 0 Byte.x61 2].
Proof.
  intros s.
  destruct (poll_failed_decode_and_queue s (context_of plain_codec []) (corrupt 0 1)
              [packet 0 Byte.x61 2] (ffmpeg_error "[video_decocer]" (-1))
              (set_packets [packet 0 Byte.x61 2] s) eq_refl eq_refl) as [H _].
  destruct (H (ex_intro _ [] eq_refl) eq_refl) as [-> Hq]. split; [reflexivity | exact Hq].
Defined.

(** A timestamp of -1 is stored as 2^32 - 1. *)
Lemma counters_within_uint32_witness :
  let s := run [call_push (Some (packet 0 Byte.x61 (-1))); call_poll] plain_decoder in
  nb_frames s = 4294967295 ∧ 0 ≤ nb_frames s < 2 ^ 32.
Proof.
  intros s. split; [reflexivity|].
  exact (proj2 (proj2 (counters_within_uint32 plain_decoder
           [call_push (Some (packet 0 Byte.x61 (-1))); call_poll]
           (constructed_open 0 (context_of plain_codec []) 0 true)))).
Defined.

Lemma poll_reports_each_picture_once_witness :
  let s := push (Some (packet 0 Byte.x61 7)) plain_decoder in
  event_subject_ (poll s).2
  = [event_int "file/video/width" 720; event_int "file/video/height" 576;
     event_str "file/video/field" "progressive"; event_str "file/video/codec" "plain"] ∧
  is_progressive_ (poll s).2 = true.
Proof.
  intros s.
  destruct (poll_reports_each_picture_once s _ _ eq_refl) as (ctx & Hctx & Hev & Hp & _).
  injection Hctx as <-. split; [exact Hev | exact Hp].
Defined.

End DecoderMore.

Module ConverterMore_Props.
Import Core Converter ConverterMore.

Section Converter.
Context `{libav : Libav}.

Lemma copy_n_bytes (src : list Byte.byte) (from count : Z) :
  0 ≤ from → 0 ≤ count → from + count ≤ Z.of_nat (length src) →
  length (take (Z.to_nat count) (drop (Z.to_nat from) src)) = Z.to_nat count.
Proof. intros. rewrite length_take, length_drop. lia. Qed.

(** [copy_n] within bounds: the destination keeps its length, the bytes
    at [to .. to + count) are those of the source at [from ..], every
    other byte is as it was. *)
Lemma copy_n_within_bounds (src dst : list Byte.byte) (from count to : Z) :
  0 ≤ from → 0 ≤ count → 0 ≤ to →
  from + count ≤ Z.of_nat (length src) → to + count ≤ Z.of_nat (length dst) →
  length (copy_n src from count dst to) = length dst ∧
  ∀ i : nat,
    copy_n src from count dst to !! i
    = if bool_decide (to ≤ Z.of_nat i < to + count)
      then src !! Z.to_nat (from + (Z.of_nat i - to))
      else dst !! i.
Proof.
  intros Hf Hc Ht Hsrc Hdst. unfold copy_n.
  pose proof (copy_n_bytes src from count Hf Hc Hsrc) as Hlen. rewrite Hlen.
  assert (Hto : length (take (Z.to_nat to) dst) = Z.to_nat to)
    by (rewrite length_take; lia).
  split.
  { rewrite !length_app, Hto, Hlen, length_drop. lia. }
  intros i. case_bool_decide as Hi.
  - rewrite lookup_app_r by (rewrite Hto; lia).
    rewrite Hto, lookup_app_l by (rewrite Hlen; lia).
    rewrite lookup_take_lt by lia. rewrite lookup_drop. f_equal. lia.
  - destruct (decide (Z.of_nat i < to)) as [Hlt|Hge].
    + rewrite lookup_app_l by (rewrite Hto; lia).
      by rewrite lookup_take_lt by lia.
    + rewrite lookup_app_r by (rewrite Hto; lia).
      rewrite Hto, lookup_app_r by (rewrite Hlen; lia).
      rewrite lookup_drop, Hlen. f_equal. lia.
Qed.


(** The scanline copies over any list of rows of a plane that fits both
    buffers: the destination keeps its length, row [y] of it holds the
    first [linesize] bytes of row [y] of the decoded plane when [y] is in
    the list, and is as it was when it is not. *)
Lemma copy_rows_lines (p : plane) (decoded : list Byte.byte) (stride : Z)
    (rows : list nat) (result : list Byte.byte) (h : nat) :
  0 < linesize p → 0 ≤ stride →
  Z.of_nat (length result) = linesize p * Z.of_nat h →
  (∀ y, y ∈ rows →
     (y < h)%nat ∧ Z.of_nat y * stride + linesize p ≤ Z.of_nat (length decoded)) →
  length (copy_rows p decoded stride rows result) = length result ∧
  ∀ y x : nat, (y < h)%nat → Z.of_nat x < linesize p →
    copy_rows p decoded stride rows result
      !! Z.to_nat (Z.of_nat y * linesize p + Z.of_nat x)
    = if bool_decide (y ∈ rows)
      then decoded !! Z.to_nat (Z.of_nat y * stride + Z.of_nat x)
      else result !! Z.to_nat (Z.of_nat y * linesize p + Z.of_nat x).
Proof.
  intros HL HS Hlen. induction rows as [|y0 rows IH] using rev_ind; intros Hrows.
  { split; [done|]. intros y x _ _. rewrite bool_decide_eq_false_2; [done|].
    apply not_elem_of_nil. }
  destruct IH as [IHlen IHlook].
  { intros y Hy. apply Hrows, elem_of_app. by left. }
  destruct (Hrows y0) as [Hy0 Hsrc]; [apply elem_of_app; right; by apply list_elem_of_singleton|].
  unfold copy_rows in *. rewrite foldl_app. cbn [foldl].
  set (dst := foldl _ result rows) in *.
  destruct (copy_n_within_bounds decoded dst (Z.of_nat y0 * stride) (linesize p)
              (Z.of_nat y0 * linesize p)) as [Hl Hlook]; [nia | lia | nia | lia | nia |].
  split; [congruence|]. intros y x Hy Hx. rewrite Hlook.
  destruct (decide (y = y0)) as [->|Hne].
  - rewrite bool_decide_eq_true_2 by nia.
    rewrite bool_decide_eq_true_2
      by (apply elem_of_app; right; by apply list_elem_of_singleton).
    f_equal. lia.
  - rewrite bool_decide_eq_false_2 by nia. rewrite IHlook by done.
    destruct (decide (y ∈ rows)) as [Hin|Hin].
    + rewrite !bool_decide_eq_true_2; [done | apply elem_of_app; by left | done].
    + rewrite !bool_decide_eq_false_2; [done | | done].
      rewrite elem_of_app, list_elem_of_singleton. tauto.
Qed.

(** The scanline copies commute: taken in any two orders over the same
    rows they leave the same bytes, which is what lets the source run
    them in a [parallel_for]. *)
Theorem copy_rows_any_order (p : plane) (decoded : list Byte.byte) (stride : Z)
    (rows rows' : list nat) (result : list Byte.byte) (h : nat) :
  0 < linesize p → 0 ≤ stride →
  Z.of_nat (length result) = linesize p * Z.of_nat h →
  (∀ y, y ∈ rows →
     (y < h)%nat ∧ Z.of_nat y * stride + linesize p ≤ Z.of_nat (length decoded)) →
  rows ≡ₚ rows' →
  copy_rows p decoded stride rows result = copy_rows p decoded stride rows' result.
Proof.
  intros HL HS Hlen Hrows Hperm.
  assert (Hrows' : ∀ y, y ∈ rows' →
            (y < h)%nat ∧ Z.of_nat y * stride + linesize p ≤ Z.of_nat (length decoded)).
  { intros y Hy. apply Hrows. by rewrite Hperm. }
  destruct (copy_rows_lines p decoded stride rows result h HL HS Hlen Hrows) as [Hl1 Hk1].
  destruct (copy_rows_lines p decoded stride rows' result h HL HS Hlen Hrows') as [Hl2 Hk2].
  apply list_eq. intros i.
  destruct (decide (i < length result)%nat) as [Hi|Hi].
  - set (L := Z.to_nat (linesize p)).
    assert (HLpos : (0 < L)%nat) by (subst L; lia).
    assert (Hidx : i = Z.to_nat (Z.of_nat (i / L)%nat * linesize p + Z.of_nat (i mod L)%nat)).
    { pose proof (Nat.div_mod_eq i L). subst L. nia. }
    assert (Hy : (i / L < h)%nat).
    { apply Nat.Div0.div_lt_upper_bound. subst L. nia. }
    assert (Hx : Z.of_nat (i mod L)%nat < linesize p).
    { pose proof (Nat.mod_upper_bound i L). subst L. lia. }
    rewrite Hidx, Hk1, Hk2 by done.
    destruct (decide ((i / L)%nat ∈ rows)) as [Hin|Hin].
    + rewrite !bool_decide_eq_true_2; [done | by rewrite <- Hperm | done].
    + rewrite !bool_decide_eq_false_2; [done | by rewrite <- Hperm | done].
  - rewrite !lookup_ge_None_2; [done | lia | lia].
Qed.

(** [copy_plane] on a plane that fits both buffers: row [y] of the
    destination holds the first [linesize] bytes of row [y] of the
    decoded plane, whatever the stride, for every row of the plane; the
    destination keeps its length. *)
Theorem copy_plane_copies_lines (p : plane) (decoded : list Byte.byte) (stride : Z)
    (result : list Byte.byte) :
  let h := Z.to_nat (to_int (plane_height p)) in
  0 < linesize p → 0 ≤ stride →
  Z.of_nat (length result) = linesize p * Z.of_nat h →
  (∀ y, (y < h)%nat → Z.of_nat y * stride + linesize p ≤ Z.of_nat (length decoded)) →
  length (copy_plane p decoded stride result) = length result ∧
  ∀ y x : nat, (y < h)%nat → Z.of_nat x < linesize p →
    copy_plane p decoded stride result
      !! Z.to_nat (Z.of_nat y * linesize p + Z.of_nat x)
    = decoded !! Z.to_nat (Z.of_nat y * stride + Z.of_nat x).
Proof.
  intros h HL HS Hlen Hsrc.
  destruct (copy_rows_lines p decoded stride (seq 0 h) result h HL HS Hlen) as [Hl Hk].
  { intros y Hy. apply elem_of_seq in Hy. split; [lia|]. apply Hsrc. lia. }
  split; [exact Hl|]. intros y x Hy Hx.
  change (copy_plane p decoded stride result)
    with (copy_rows p decoded stride (seq 0 h) result).
  rewrite Hk by done. rewrite bool_decide_eq_true_2; [done|].
  apply elem_of_seq. lia.
Qed.


(** A decoder the constructor built: it took width, height and native
    format from the codec context, its descriptor is never invalid, and
    it has a scaling context exactly when the native format is not
    supported, in which case the descriptor is the one-plane bgra one and
    the warning was logged; with a supported format nothing was logged. *)
Theorem constructed_decoder_invariant (codec_context : AVCodecContext)
    (factory : frame_factory) (s : implementation) (warnings : list string) :
  implementation_new codec_context factory = (inr s, warnings) →
  frame_factory_ s = factory ∧ codec_context_ s = codec_context ∧
  width_ s = width codec_context ∧ height_ s = height codec_context ∧
  pix_fmt_ s = ctx_pix_fmt codec_context ∧
  pix_fmt (desc_ s) ≠ pixel_format.invalid ∧
  (sws_context_ s = None ↔
     get_pixel_format (ctx_pix_fmt codec_context) ≠ pixel_format.invalid) ∧
  (sws_context_ s = None →
     desc_ s = get_pixel_format_desc (pix_fmt_ s) (width_ s) (height_ s) ∧ warnings = []) ∧
  (is_Some (sws_context_ s) →
     pix_fmt (desc_ s) = pixel_format.bgra ∧ length (planes (desc_ s)) = 1%nat ∧
     warnings = ["Hardware accelerated color transform not supported."%string]).
Proof.
  unfold implementation_new.
  assert (Hdesc : pix_fmt (get_pixel_format_desc (ctx_pix_fmt codec_context)
                    (width codec_context) (height codec_context))
                  = get_pixel_format (ctx_pix_fmt codec_context)).
  { unfold get_pixel_format_desc. by destruct (ctx_pix_fmt codec_context). }
  destruct (framerate_mismatch _ _); [done|].
  case_bool_decide as Hinv.
  - destruct (sws_getContext _ _ _ _ _ _) as [sws|]; [|done].
    intros [= <- <-]. simpl. rewrite Hdesc in Hinv.
    split_and!; try done; try (split; [done | by intros []]).
  - intros [= <- <-]. simpl. rewrite Hdesc in Hinv.
    split_and!; try done; try (by rewrite Hdesc); try (by intros [? [=]]).
Qed.

(** The constructor fails in two ways only: with [file_read_error] when
    the frame intervals differ, before anything is logged, and with
    [operation_failed] when they agree, the native format is not
    supported and no scaling context can be made. *)
Theorem constructor_failures (codec_context : AVCodecContext) (factory : frame_factory)
    (e : exn) (warnings : list string) :
  implementation_new codec_context factory = (inl e, warnings) →
  (framerate_mismatch codec_context factory = true ∧ warnings = [] ∧
   e = file_read_error "Invalid video framerate." (frame_time codec_context)) ∨
  (framerate_mismatch codec_context factory = false ∧
   get_pixel_format (ctx_pix_fmt codec_context) = pixel_format.invalid ∧
   sws_getContext (width codec_context) (height codec_context) (ctx_pix_fmt codec_context)
     (width codec_context) (height codec_context) PIX_FMT_BGRA = None ∧
   warnings = ["Hardware accelerated color transform not supported."%string] ∧
   e = operation_failed "Could not create software scaling context." "sws_getContext").
Proof.
  unfold implementation_new.
  assert (Hdesc : pix_fmt (get_pixel_format_desc (ctx_pix_fmt codec_context)
                    (width codec_context) (height codec_context))
                  = get_pixel_format (ctx_pix_fmt codec_context)).
  { unfold get_pixel_format_desc. by destruct (ctx_pix_fmt codec_context). }
  destruct (framerate_mismatch _ _); [intros [= <- <-]; by left|].
  case_bool_decide as Hinv; [|done]. rewrite Hdesc in Hinv.
  destruct (sws_getContext _ _ _ _ _ _) as [sws|] eqn:Hsws; [done|].
  intros [= <- <-]. by right.
Qed.

Lemma copy_planes_buffers desc decoded write :
  length (image_data (copy_planes desc decoded write)) = length (image_data write).
Proof.
  unfold copy_planes.
  generalize (seq 0 (Z.to_nat (to_int (Z.of_nat (length (planes desc)))))).
  intros ns. revert write. induction ns as [|n ns IH]; intros write; [done|].
  simpl. rewrite IH. destruct (planes desc !! n); [|done]. simpl. apply length_insert.
Qed.

(** [execute] returns a frame exactly when the decode primitive's status
    is not negative, whether or not it reports a finished picture, and
    throws [invalid_operation] otherwise; the frame has as many plane
    buffers as the factory made; and of the decoder only the codec's own
    state changes, in both cases. *)
Theorem execute_outcome (s : implementation) (video_packet : list Byte.byte) :
  let '(status, finished, decoded, st) :=
    avcodec_decode_video (codec (codec_context_ s)) video_packet in
  (execute video_packet s).2 = set_codec_context (set_codec st (codec_context_ s)) s ∧
  (status < 0 →
     (execute video_packet s).1 = inl (invalid_operation "avcodec_decode_video failed")) ∧
  (0 ≤ status →
     ∃ write, (execute video_packet s).1 = inr write ∧
       length (image_data write)
       = length (image_data (create_frame (frame_factory_ s) (desc_ s)))).
Proof.
  unfold execute. run_M.
  destruct (avcodec_decode_video _ _) as [[[status finished] decoded] st]. run_M.
  case_bool_decide as Hneg; run_M.
  - split; [done|]. split; [done|]. lia.
  - split; [done|]. split; [lia|]. intros _. eexists. split; [reflexivity|].
    destruct (needs_field_correction _); simpl;
      (destruct (sws_context_ s); [simpl; apply length_insert | apply copy_planes_buffers]).
Qed.

End Converter.

Import Samples.

Lemma sample_rows_fit (rows : list nat) :
  (∀ y, y ∈ rows → (y < 2)%nat) →
  ∀ y, y ∈ rows →
    (y < 2)%nat ∧ Z.of_nat y * 3 + linesize two_by_two ≤ Z.of_nat (length padded_lines).
Proof.
  intros Hrows y Hy. specialize (Hrows y Hy). split; [done|].
  unfold linesize. simpl. lia.
Qed.

Lemma rows_below_two (rows : list nat) :
  rows = [0%nat; 1%nat] ∨ rows = [1%nat; 0%nat] ∨ rows = [1%nat] →
  ∀ y, y ∈ rows → (y < 2)%nat.
Proof.
  intros Hr y Hy. destruct Hr as [->|[->| ->]];
    repeat (apply elem_of_cons in Hy as [->|Hy]; [lia|]); by apply elem_of_nil in Hy.
Qed.

Lemma copy_rows_any_order_witness :
  @copy_rows two_by_two padded_lines 3 [0%nat; 1%nat] zeros
  = @copy_rows two_by_two padded_lines 3 [1%nat; 0%nat] zeros.
Proof.
  apply (@copy_rows_any_order two_by_two padded_lines 3 [0%nat; 1%nat] [1%nat; 0%nat]
           zeros 2); [reflexivity | lia | reflexivity | |].
  - apply sample_rows_fit, rows_below_two. auto.
  - apply perm_swap.
Defined.

Lemma copy_plane_copies_lines_witness :
  @copy_plane two_by_two padded_lines 3 zeros !! 3%nat = Some Byte.x0d ∧
  length (@copy_plane two_by_two padded_lines 3 zeros) = 4%nat.
Proof.
  destruct (@copy_plane_copies_lines two_by_two padded_lines 3 zeros)
    as [Hl Hk]; [reflexivity | lia | reflexivity | |].
  { intros y Hy. change (Z.to_nat (to_int (plane_height two_by_two))) with 2%nat in Hy.
    unfold linesize. simpl. lia. }
  split; [apply (Hk 1%nat 1%nat); [vm_compute; lia | reflexivity] | exact Hl].
Defined.

(** Stream and output of 25 Hz: a planar format needs no scaling
    context, an unsupported one gets it. *)
Lemma constructed_decoder_invariant_witness :
  match (@implementation_new sample_libav
           (sample_context CODEC_ID_DVVIDEO PIX_FMT_YUV420P 1 25)
           (sample_factory upper 25)).1 with
  | inr s => sws_context_ s = None ∧ length (planes (desc_ s)) = 3%nat
  | inl _ => False
  end ∧
  match (@implementation_new sample_libav
           (sample_context CODEC_ID_DVVIDEO (PIX_FMT_other 99) 1 25)
           (sample_factory upper 25)).1 with
  | inr s => is_Some (sws_context_ s) ∧ length (planes (desc_ s)) = 1%nat
  | inl _ => False
  end.
Proof.
  split.
  - destruct (@implementation_new sample_libav
                (sample_context CODEC_ID_DVVIDEO PIX_FMT_YUV420P 1 25)
                (sample_factory upper 25)) as [[e|s] w] eqn:E;
      [vm_compute in E; discriminate E|]. cbn [fst].
    destruct (constructed_decoder_invariant _ _ _ _ E)
      as (_ & _ & _ & _ & _ & _ & Hiff & Hnone & _).
    assert (Hs : sws_context_ s = None) by (apply Hiff; discriminate).
    split; [exact Hs|]. destruct (Hnone Hs) as [-> _].
    injection E as <- _. reflexivity.
  - destruct (@implementation_new sample_libav
                (sample_context CODEC_ID_DVVIDEO (PIX_FMT_other 99) 1 25)
                (sample_factory upper 25)) as [[e|s] w] eqn:E;
      [vm_compute in E; discriminate E|]. cbn [fst].
    destruct (constructed_decoder_invariant _ _ _ _ E)
      as (_ & _ & _ & _ & _ & _ & _ & _ & Hsome).
    injection E as <- _. destruct (Hsome (ex_intro _ tt eq_refl)) as (_ & H1 & _).
    split; [by exists tt | exact H1].
Defined.

(** An empty packet is refused, a packet of one byte gives a frame of
    three planes. *)
Lemma execute_outcome_witness :
  let s := {| frame_factory_ := sample_factory upper 25; sws_context_ := None;
              codec_context_ := sample_context CODEC_ID_DVVIDEO PIX_FMT_YUV420P 1 25;
              width_ := 2; height_ := 2; pix_fmt_ := PIX_FMT_YUV420P;
              desc_ := @get_pixel_format_desc sample_libav PIX_FMT_YUV420P 2 2 |} in
  (@execute sample_libav [] s).1 = inl (invalid_operation "avcodec_decode_video failed") ∧
  ∃ write, (@execute sample_libav [Byte.x01] s).1 = inr write ∧
    length (image_data write) = 3%nat.
Proof.
  intros s. split.
  - pose proof (@execute_outcome sample_libav s []) as H. simpl in H.
    destruct H as (_ & H & _). apply H. lia.
  - pose proof (@execute_outcome sample_libav s [Byte.x01]) as H. simpl in H.
    destruct H as (_ & _ & H). destruct H as (write & Hw & Hl); [lia|].
    exists write. split; [exact Hw | exact Hl].
Defined.

Lemma constructor_failures_witness :
  framerate_mismatch (sample_context CODEC_ID_DVVIDEO PIX_FMT_YUV420P 1 25)
    (sample_factory upper 50) = true.
Proof.
  destruct (@constructor_failures sample_libav
              (sample_context CODEC_ID_DVVIDEO PIX_FMT_YUV420P 1 25) (sample_factory upper 50)
              (file_read_error "Invalid video framerate." (1 / 25)%float) [] eq_refl)
    as [(H & _)|(H & _)]; [exact H | discriminate H].
Defined.

End ConverterMore_Props.

Module MixerMore_Props.
Import Core Mixer MixerMore.

Section Mixer.
Context `{collaborators : Collaborators}.

(** A mixed frame that [operator()] returns is tagged with the mixer's
    address, describes one bgra plane of the format's width and height
    with 4 channels, and answers width, height and frame rate from the
    format descriptor; the tick that made it logged nothing and made all
    the calls of its script. *)
Theorem mixed_frame_of_a_tick (s : impl) (frames : list (Z * draw_frame))
    (format_desc : video_format_desc) (f : mixed_frame) (s' : impl) :
  operator_call frames format_desc s = (inr (data_frame_mixed f), s') →
  tag f = this_ s ∧
  get_pixel_format_desc f
    = {| pix_fmt := pixel_format.bgra;
         planes := [{| plane_width := format_width format_desc;
                       plane_height := format_height format_desc;
                       plane_channels := 4 |}] |} ∧
  width f = format_width format_desc ∧ height f = format_height format_desc ∧
  get_frame_rate f = fps format_desc ∧
  log_ s' = log_ s ∧
  calls_ s' = calls_ s ++ tick_calls (blend_modes_ s') frames format_desc.
Proof.
  intros Hop.
  destruct (MixerProps.operator_call_rule frames format_desc s)
    as (f0 & s0 & Hop' & Hb & _ & _ & (made & Hc & _ & Hall) & Hres).
  rewrite Hop in Hop'. injection Hop' as <- <-.
  destruct (MixerProps.worker_run_rule (length (executor_ s)) s)
    as (_ & _ & Ht & _ & _ & _ & Hl).
  destruct (compose frames format_desc (worker_run (length (executor_ s)) s))
    as [[e|mixed] s2] eqn:E; [by destruct Hres|].
  destruct Hres as [<- <-].
  destruct (MixerProps.compose_rule _ _ _ _ _ E) as (_ & Hlog & _ & Hf).
  destruct (Hf _ eq_refl) as (image & audio & [= ->]).
  split_and!; try done; [congruence|].
  rewrite Hc, Hb. by rewrite Hall.
Qed.

(** A tick that returns the empty frame failed inside: composition threw
    an exception, and exactly that exception was added to the log. *)
Theorem empty_frame_is_a_logged_failure (s : impl) (frames : list (Z * draw_frame))
    (format_desc : video_format_desc) (s' : impl) :
  operator_call frames format_desc s = (inr data_frame_empty, s') →
  ∃ e, (compose frames format_desc (worker_run (length (executor_ s)) s)).1 = inl e ∧
    log_ s' = log_ s ++ [e].
Proof.
  intros Hop.
  destruct (MixerProps.operator_call_rule frames format_desc s)
    as (f0 & s0 & Hop' & _ & _ & _ & _ & Hres).
  rewrite Hop in Hop'. injection Hop' as <- <-.
  destruct (MixerProps.worker_run_rule (length (executor_ s)) s)
    as (_ & _ & _ & _ & _ & _ & Hl).
  destruct (compose frames format_desc (worker_run (length (executor_ s)) s))
    as [[e|mixed] s2] eqn:E.
  - destruct Hres as [_ ->]. exists e. split; [done|].
    destruct (MixerProps.compose_rule _ _ _ _ _ E) as (_ & Hlog & _). simpl. congruence.
  - destruct Hres as [<- _].
    destruct (MixerProps.compose_rule _ _ _ _ _ E) as (_ & _ & _ & Hf).
    by destruct (Hf _ eq_refl) as (? & ? & ?).
Qed.

Lemma layer_calls_no_finish table (frames : list (Z * draw_frame)) c :
  c ∈ concat (layer_calls table <$> frames) →
  ∀ format_desc, c ≠ call_image format_desc ∧ c ≠ call_audio format_desc.
Proof.
  intros Hin format_desc. induction frames as [|frame frames IH].
  { by apply elem_of_nil in Hin. }
  rewrite fmap_cons, concat_cons in Hin. apply elem_of_app in Hin as [Hc|Hin]; [|by apply IH].
  unfold layer_calls in Hc.
  repeat (apply elem_of_cons in Hc as [->|Hc]; [done|]). by apply elem_of_nil in Hc.
Qed.

(** When a layer throws, the tick stops there: [operator()] returns the
    empty frame with the exception logged, the calls made are some first
    ones of the layers' calls, and neither mixer is asked for its
    result. *)
Theorem failed_layer_stops_the_tick (s : impl) (frames : list (Z * draw_frame))
    (format_desc : video_format_desc) (e : exn) (s2 : impl) :
  mix_layers frames (worker_run (length (executor_ s)) s) = (inl e, s2) →
  operator_call frames format_desc s = (inr data_frame_empty, log_exception e s2) ∧
  ∃ made, calls_ (log_exception e s2) = calls_ s ++ made ∧
    made `prefix_of` concat (layer_calls (blend_modes_ s2) <$> frames) ∧
    ∀ c, c ∈ made → ∀ d, c ≠ call_image d ∧ c ≠ call_audio d.
Proof.
  intros Hmix.
  destruct (MixerProps.worker_run_rule (length (executor_ s)) s)
    as (_ & _ & _ & _ & _ & Hcalls & _).
  destruct (MixerProps.mix_layers_rule _ _ _ _ Hmix)
    as ((_ & Hb & _) & _ & made & Hc & Hp & _).
  split.
  - unfold operator_call, executor_invoke, tick, compose. run_M. by rewrite Hmix.
  - exists made. simpl. rewrite Hc, Hcalls, Hb. split; [done|]. split; [done|].
    intros c Hin. eapply layer_calls_no_finish.
    destruct Hp as [k Hk]. rewrite Hk. apply elem_of_app. by left.
Qed.

(** The table after a [set_blend_mode] task: the task's index has the
    task's value, every other index what it had; running a task twice is
    running it once, of two tasks on one index the later one counts, and
    tasks on different indices can be swapped. *)
Theorem blend_tasks_compose (s : impl) (t u : blend_task) :
  (∀ i, blend_modes_ (run_blend_task t s) !! i
        = if decide (i = task_index t) then Some (task_value t) else blend_modes_ s !! i) ∧
  run_blend_task t (run_blend_task t s) = run_blend_task t s ∧
  (task_index t = task_index u →
     run_blend_task u (run_blend_task t s) = run_blend_task u s) ∧
  (task_index t ≠ task_index u →
     run_blend_task u (run_blend_task t s) = run_blend_task t (run_blend_task u s)).
Proof.
  rewrite !MixerProps.run_blend_task_insert. unfold set_blend_modes. simpl. split_and!.
  - intros i. rewrite lookup_insert. case_decide; case_decide; congruence.
  - by rewrite insert_insert_eq.
  - intros Heq. by rewrite Heq, insert_insert_eq.
  - intros Hne. f_equal. by apply insert_insert_ne.
Qed.

Lemma prefix_cons_cases {A} (x : A) (l pre : list A) :
  pre `prefix_of` x :: l → pre = [] ∨ ∃ pre', pre = x :: pre' ∧ pre' `prefix_of` l.
Proof.
  destruct pre as [|y pre']; [by left|]. intros Hp. right. exists pre'.
  pose proof (prefix_cons_inv_1 _ _ _ _ Hp) as ->.
  split; [done|]. by eapply prefix_cons_inv_2.
Qed.

Lemma open_layers_script table (frames : list (Z * draw_frame)) format_desc pre :
  pre `prefix_of` tick_calls table frames format_desc →
  0 ≤ open_layers pre ≤ 1 ∧
  (pre = tick_calls table frames format_desc → open_layers pre = 0).
Proof.
  revert pre. induction frames as [|frame frames IH]; intros pre Hp.
  - unfold tick_calls in *. simpl in *.
    apply prefix_cons_cases in Hp as [->|(p1 & -> & Hp)]; [done|].
    apply prefix_cons_cases in Hp as [->|(p2 & -> & Hp)]; [done|].
    apply prefix_nil_inv in Hp as ->. done.
  - unfold tick_calls in *. rewrite fmap_cons, concat_cons in *.
    unfold layer_calls at 1 in Hp. unfold layer_calls at 1. simpl in Hp. simpl.
    apply prefix_cons_cases in Hp as [->|(p1 & -> & Hp)]; [done|].
    apply prefix_cons_cases in Hp as [->|(p2 & -> & Hp)]; [simpl; split; [lia|done]|].
    apply prefix_cons_cases in Hp as [->|(p3 & -> & Hp)]; [simpl; split; [lia|done]|].
    apply prefix_cons_cases in Hp as [->|(p4 & -> & Hp)]; [simpl; split; [lia|done]|].
    destruct (IH _ Hp) as [Hr Hz]. simpl. split; [lia|].
    intros [= ->]. rewrite Hz by done. lia.
Qed.

(** Layers are bracketed: at every point of a tick, failed or not, every
    layer begun so far has been ended except possibly the last one, and
    no layer is ended that was not begun; after a tick that returned a
    mixed frame no layer is open. *)
Theorem tick_brackets_layers (s : impl) (frames : list (Z * draw_frame))
    (format_desc : video_format_desc) :
  ∃ made, calls_ (operator_call frames format_desc s).2 = calls_ s ++ made ∧
    (∀ pre, pre `prefix_of` made → 0 ≤ open_layers pre ≤ 1) ∧
    ((operator_call frames format_desc s).1 ≠ inr data_frame_empty →
       open_layers made = 0).
Proof.
  destruct (MixerProps.operator_call_rule frames format_desc s)
    as (f & s' & -> & _ & _ & _ & (made & Hc & Hp & Hall) & _).
  exists made. cbn [fst snd]. split; [done|]. split.
  - intros pre Hpre. eapply open_layers_script. by etrans.
  - intros Hf. eapply open_layers_script; [done|]. apply Hall. congruence.
Qed.

End Mixer.

Import Samples.

Lemma mixed_frame_of_a_tick_witness :
  match (@operator_call sample_collaborators [layer 1 10] pal sample_mixer).1 with
  | inr (data_frame_mixed f) =>
      tag f = 4096 ∧ width f = 720 ∧ height f = 576 ∧
      length (planes (get_pixel_format_desc f)) = 1%nat
  | _ => False
  end.
Proof.
  destruct (@operator_call sample_collaborators [layer 1 10] pal sample_mixer)
    as [[e|[|f]] s'] eqn:E; try (vm_compute in E; discriminate E). cbn [fst].
  destruct (mixed_frame_of_a_tick _ _ _ _ _ E) as (Ht & Hd & Hw & Hh & _).
  split; [exact Ht|]. split; [exact Hw|]. split; [exact Hh|]. rewrite Hd. reflexivity.
Defined.

(** A tick whose second layer makes the image mixer throw. *)
Lemma empty_frame_is_a_logged_failure_witness :
  log_ (@operator_call sample_collaborators [layer 1 10; layer 2 (-1)] pal sample_mixer).2
  = [foreign_exception "bad layer"].
Proof.
  destruct (@empty_frame_is_a_logged_failure sample_collaborators sample_mixer
              [layer 1 10; layer 2 (-1)] pal _ eq_refl) as (e & He & Hlog).
  injection He as <-. exact Hlog.
Defined.

Lemma failed_layer_stops_the_tick_witness :
  (@operator_call sample_collaborators [layer 1 10; layer 2 (-1); layer 3 30] pal
     sample_mixer).1 = inr data_frame_empty ∧
  length (calls_ (@operator_call sample_collaborators
                    [layer 1 10; layer 2 (-1); layer 3 30] pal sample_mixer).2) = 7%nat.
Proof.
  destruct (@failed_layer_stops_the_tick sample_collaborators sample_mixer
              [layer 1 10; layer 2 (-1); layer 3 30] pal _ _ eq_refl) as [-> _].
  split; reflexivity.
Defined.

Lemma blend_tasks_compose_witness :
  let t := {| task_index := 1; task_value := blend_mode_other 2 |} in
  let u := {| task_index := 5; task_value := blend_mode_other 3 |} in
  run_blend_task u (run_blend_task t sample_mixer)
  = run_blend_task t (run_blend_task u sample_mixer).
Proof.
  intros t u.
  destruct (@blend_tasks_compose sample_collaborators sample_mixer t u) as (_ & _ & _ & H).
  apply H. simpl. lia.
Defined.

Lemma tick_brackets_layers_witness :
  ∃ made,
    calls_ (@operator_call sample_collaborators [layer 1 10; layer 3 30] pal sample_mixer).2
    = calls_ sample_mixer ++ made ∧ open_layers made = 0.
Proof.
  destruct (@tick_brackets_layers sample_collaborators sample_mixer
              [layer 1 10; layer 3 30] pal) as (made & Hc & _ & Hz).
  exists made. split; [exact Hc|]. apply Hz. vm_compute. discriminate.
Defined.

End MixerMore_Props.
